(** * check_sensitive_info.py: the sensitive-information prompt filter

    A shallow embedding of [src/check_sensitive_info.py] and the proofs of
    the properties its specification states.

    Layout:
    - [Text]:    Python [str] values as sequences of Unicode code points;
    - [Regex]:   the fragment of Python's [re] syntax the detectors use,
                 its declarative meaning and an executable [re.search];
    - [Detect]:  the five detectors, pattern by pattern, and the shapes
                 of text the specification names;
    - [Py]:      JSON values, exceptions and the effect monad of [main],
                 with a standard output whose writes can raise;
    - [Hook]:    [check_sensitive_info] and [main];
    - [Shapes]:  what the patterns ask of a text (least length, required
                 characters, the vendor tokens, the email address);
    - [Signatures]: the signature of each detector in the words of
                 section 4.1 of the specification, as shapes of text;
    - [RegexFacts], [DetectFacts], [HookFacts]: the matcher computes the
                 declarative meaning; what each pattern takes; the runs
                 of [main], path by path;
    - [ShapeFacts], [SignatureFacts]: the bounds of the patterns; each
                 detector against its signature;
    - the claims of the specification, C1 to C10;
    - the further properties X1 to X16 of the detectors and of the
                 adapter. *)

From Stdlib Require Import List NArith ZArith Lia Bool String Ascii.
Import ListNotations.

Set Implicit Arguments.
Set Warnings "-register-all".

(* ================================================================== *)
(** ** Text: Python strings *)

Module Text.

Local Open Scope N_scope.

(** A Python [str] is a sequence of code points. *)
Definition str := list N.

(** Decoding of a UTF-8 byte sequence, used to write the string literals
    of the source (which holds CJK text) as Rocq string literals. *)
Fixpoint utf8_decode (bs : list N) : str :=
  match bs with
  | [] => []
  | b0 :: t0 =>
      if b0 <? 128 then b0 :: utf8_decode t0
      else if b0 <? 224 then
        match t0 with
        | b1 :: t1 => ((b0 mod 32) * 64 + b1 mod 64) :: utf8_decode t1
        | _ => []
        end
      else if b0 <? 240 then
        match t0 with
        | b1 :: b2 :: t2 =>
            ((b0 mod 16) * 4096 + (b1 mod 64) * 64 + b2 mod 64)
              :: utf8_decode t2
        | _ => []
        end
      else
        match t0 with
        | b1 :: b2 :: b3 :: t3 =>
            ((b0 mod 8) * 262144 + (b1 mod 64) * 4096
             + (b2 mod 64) * 64 + b3 mod 64) :: utf8_decode t3
        | _ => []
        end
  end.

(** [py "..."] is the Python string written by the literal. *)
Definition py (s : string) : str :=
  utf8_decode (map N_of_ascii (list_ascii_of_string s)).

(** Line feed, the character [.] refuses without [re.DOTALL]. *)
Definition LF : N := 10.
Definition DQUOTE : N := 34.
Definition SQUOTE : N := 39.

(** ASCII lower-casing, the folding the per-letter classes [[Xx]]
    of the source implement. *)
Definition lower (c : N) : N :=
  if (65 <=? c) && (c <=? 90) then c + 32 else c.

End Text.

(* ================================================================== *)
(** ** Regex: the pattern language of the detectors *)

Module Regex.

Import Text.
Local Open Scope N_scope.

(** Members of a bracket class. *)
Inductive item :=
| Chr (c : N)              (* a literal character                 *)
| Range (lo hi : N)        (* [lo-hi]                             *)
| Space.                   (* [\s]                                *)

(** [\s] on a [str] pattern: the code points of [str.isspace]. *)
Definition is_space (c : N) : bool :=
  ((9 <=? c) && (c <=? 13)) || ((28 <=? c) && (c <=? 32))
  || (c =? 133) || (c =? 160) || (c =? 5760)
  || ((8192 <=? c) && (c <=? 8202))
  || (c =? 8232) || (c =? 8233) || (c =? 8239) || (c =? 8287)
  || (c =? 12288).

Definition in_item (c : N) (i : item) : bool :=
  match i with
  | Chr d => c =? d
  | Range lo hi => (lo <=? c) && (c <=? hi)
  | Space => is_space c
  end.

(** The flags of one [re.search] call; the source only ever passes
    [re.DOTALL]. *)
Record flags := { dotall : bool }.
Definition NOFLAGS := {| dotall := false |}.
Definition DOTALL := {| dotall := true |}.

Inductive regex :=
| Empty                                   (* matches nothing (derivatives only) *)
| Eps                                     (* the empty pattern                  *)
| Set_ (negated : bool) (items : list item)   (* [[...]] and [[^...]]           *)
| Dot                                     (* [.]                                *)
| Cat (r1 r2 : regex)
| Alt (r1 r2 : regex)                     (* derivatives only                   *)
| Rep (r : regex) (lo : nat) (hi : option nat).  (* [r{lo,hi}], [*], [+], [?]   *)

Definition in_set (negated : bool) (items : list item) (c : N) : bool :=
  xorb negated (existsb (in_item c) items).

Definition dot_accepts (f : flags) (c : N) : bool :=
  dotall f || negb (c =? LF).

Definition pred_hi (hi : option nat) : option nat :=
  match hi with
  | Some n => Some (Nat.pred n)
  | None => None
  end.

Definition hi_zero (hi : option nat) : bool :=
  match hi with
  | Some O => true
  | _ => false
  end.

(** [lo <= hi], with [None] for no upper bound. *)
Definition within (lo : nat) (hi : option nat) : bool :=
  match hi with
  | Some h => Nat.leb lo h
  | None => true
  end.

(** Declarative meaning: [matches f r s] when the whole of [s] is in the
    language of [r]. *)
Inductive matches (f : flags) : regex -> str -> Prop :=
| MEps : matches f Eps []
| MSet neg items c :
    in_set neg items c = true -> matches f (Set_ neg items) [c]
| MDot c : dot_accepts f c = true -> matches f Dot [c]
| MCat r1 r2 s1 s2 :
    matches f r1 s1 -> matches f r2 s2 -> matches f (Cat r1 r2) (s1 ++ s2)
| MAltL r1 r2 s : matches f r1 s -> matches f (Alt r1 r2) s
| MAltR r1 r2 s : matches f r2 s -> matches f (Alt r1 r2) s
| MRepDone r hi : matches f (Rep r 0 hi) []
| MRepMore r lo hi s1 s2 :
    hi_zero hi = false ->
    matches f r s1 ->
    matches f (Rep r (Nat.pred lo) (pred_hi hi)) s2 ->
    matches f (Rep r lo hi) (s1 ++ s2).

(** A text contains a match of [r]: what [re.search] looks for. *)
Definition contains (f : flags) (r : regex) (t : str) : Prop :=
  exists a m b, t = a ++ m ++ b /\ matches f r m.

(** *** The executable matcher, by derivatives *)

Fixpoint nullable (r : regex) : bool :=
  match r with
  | Empty => false
  | Eps => true
  | Set_ _ _ => false
  | Dot => false
  | Cat r1 r2 => nullable r1 && nullable r2
  | Alt r1 r2 => nullable r1 || nullable r2
  | Rep r lo hi =>
      match lo with
      | O => true
      | S _ => within lo hi && nullable r
      end
  end.

Definition cat (r1 r2 : regex) : regex :=
  match r1, r2 with
  | Empty, _ => Empty
  | _, Empty => Empty
  | Eps, _ => r2
  | _, _ => Cat r1 r2
  end.

Definition alt (r1 r2 : regex) : regex :=
  match r1, r2 with
  | Empty, _ => r2
  | _, Empty => r1
  | _, _ => Alt r1 r2
  end.

Fixpoint deriv (f : flags) (c : N) (r : regex) : regex :=
  match r with
  | Empty => Empty
  | Eps => Empty
  | Set_ neg items => if in_set neg items c then Eps else Empty
  | Dot => if dot_accepts f c then Eps else Empty
  | Cat r1 r2 =>
      if nullable r1
      then alt (cat (deriv f c r1) r2) (deriv f c r2)
      else cat (deriv f c r1) r2
  | Alt r1 r2 => alt (deriv f c r1) (deriv f c r2)
  | Rep r lo hi =>
      if hi_zero hi then Empty
      else cat (deriv f c r) (Rep r (Nat.pred lo) (pred_hi hi))
  end.

(** [match_here f r s]: some prefix of [s] is in the language of [r]
    ([re.match]). *)
Fixpoint match_here (f : flags) (r : regex) (s : str) : bool :=
  nullable r ||
  match s with
  | [] => false
  | c :: s' => match_here f (deriv f c r) s'
  end.

(** [search f r s]: [re.search(r, s, f)] is not [None]; the scan tries
    every start position from left to right.  The detectors only test the
    result for truth, and the patterns have no anchors, look-arounds,
    back-references or possessive repeats, so the backtracking engine
    finds a match exactly when one exists. *)
Fixpoint search (f : flags) (r : regex) (s : str) : bool :=
  match_here f r s ||
  match s with
  | [] => false
  | _ :: s' => search f r s'
  end.

(** *** Pattern-writing helpers, so that a pattern reads like its source *)

Definition cls (s : string) : regex :=
  Set_ false (map Chr (py s)).
Definition star (r : regex) : regex := Rep r 0 None.       (* r*      *)
Definition plus (r : regex) : regex := Rep r 1 None.       (* r+      *)
Definition opt (r : regex) : regex := Rep r 0 (Some 1%nat). (* r?      *)
Definition atleast (n : nat) (r : regex) : regex := Rep r n None.  (* r{n,} *)
Definition exactly (n : nat) (r : regex) : regex := Rep r n (Some n). (* r{n} *)
(** A capturing group: it changes what a match object reports, never
    whether there is one. *)
Definition group (r : regex) : regex := r.
Fixpoint re_seq (rs : list regex) : regex :=
  match rs with
  | [] => Eps
  | r :: rs' => Cat r (re_seq rs')
  end.
Definition rng (a b : ascii) : item := Range (N_of_ascii a) (N_of_ascii b).
Definition chr (a : ascii) : item := Chr (N_of_ascii a).
(** A run of literal characters. *)
Definition lit (s : string) : regex :=
  re_seq (map (fun c => Set_ false [Chr c]) (py s)).

End Regex.

(* ================================================================== *)
(** ** Detect: the five detectors *)

Module Detect.

Import Text Regex.

(** Classes the patterns share. *)
Definition ws : regex := Set_ false [Space].                    (* \s      *)
Definition assign : regex := cls ":=".                          (* [:=]    *)
Definition quote : regex := Set_ false [Chr DQUOTE; Chr SQUOTE]. (* the class of the two quote characters *)
Definition key_chars : regex :=                                 (* [A-Za-z0-9_\-] *)
  Set_ false [rng "A" "Z"; rng "a" "z"; rng "0" "9"; chr "_"; chr "-"].
Definition value_chars : regex :=                               (* the class of all but \s and the quotes *)
  Set_ true [Space; Chr DQUOTE; Chr SQUOTE].

(** [for pattern in patterns: if re.search(pattern, text): return True]
    and [return False] after the loop. *)
Fixpoint any_search (f : flags) (patterns : list regex) (text : str) : bool :=
  match patterns with
  | [] => false
  | pattern :: rest =>
      if search f pattern text then true else any_search f rest text
  end.

(** [api[_-]?key], every letter in both cases. *)
Definition api_key_label : list regex :=
  [cls "Aa"; cls "Pp"; cls "Ii"; opt (cls "_-"); cls "Kk"; cls "Ee"; cls "Yy"].

Definition api_key_patterns : list regex :=
  [ (* API_KEY: xxx *)
    re_seq (api_key_label ++
            [star ws; assign; star ws; opt quote;
             group (atleast 20 key_chars); opt quote]);
    (* API_KEY xxx *)
    re_seq (api_key_label ++ [plus ws; group (atleast 20 key_chars)]);
    (* OpenAI API Key *)
    re_seq [lit "sk-";
            atleast 32 (Set_ false [rng "A" "Z"; rng "a" "z"; rng "0" "9"])];
    (* Google API Key *)
    re_seq [lit "AIza";
            exactly 35 (Set_ false [rng "0" "9"; rng "A" "Z"; rng "a" "z";
                                    chr "_"; chr "-"])];
    (* AWS Access Key ID *)
    re_seq [lit "AKIA"; exactly 16 (Set_ false [rng "0" "9"; rng "A" "Z"])];
    (* a 40-character base64 key *)
    exactly 40 (Set_ false [rng "0" "9"; rng "a" "z"; rng "A" "Z";
                            chr "/"; chr "+"]) ].

Definition detect_api_key (text : str) : bool :=
  any_search NOFLAGS api_key_patterns text.

(** [\s*[:=]\s*Q?([^\sQ]{6,})Q?], the tail the password patterns
    share, where Q stands for the double and the single quote. *)
Definition password_value : list regex :=
  [star ws; assign; star ws; opt quote; group (atleast 6 value_chars);
   opt quote].

Definition password_label : list regex :=
  [cls "Pp"; cls "Aa"; cls "Ss"; cls "Ss"; cls "Ww"; cls "Oo"; cls "Rr";
   cls "Dd"].

Definition password_patterns : list regex :=
  [ (* password: xxx *)
    re_seq (password_label ++ password_value);
    (* pwd: xxx *)
    re_seq ([cls "Pp"; cls "Ww"; cls "Dd"] ++ password_value);
    (* pass: xxx *)
    re_seq ([cls "Pp"; lit "ass"] ++ password_value);
    (* 密碼: xxx *)
    re_seq ([lit "密碼"] ++ password_value) ].

Definition detect_password (text : str) : bool :=
  any_search NOFLAGS password_patterns text.

(** [\s*[:=]\s*Q?([A-Za-z0-9_\-]{n,})Q?] *)
Definition secret_value (n : nat) : list regex :=
  [star ws; assign; star ws; opt quote; group (atleast n key_chars);
   opt quote].

Definition secret_label : list regex :=
  [cls "Ss"; cls "Ee"; cls "Cc"; cls "Rr"; cls "Ee"; cls "Tt"].

Definition secret_key_patterns : list regex :=
  [ (* SECRET: xxx *)
    re_seq (secret_label ++ secret_value 16);
    (* SECRET_KEY: xxx *)
    re_seq (secret_label ++ [opt (cls "_-"); cls "Kk"; cls "Ee"; cls "Yy"]
            ++ secret_value 16);
    (* TOKEN: xxx *)
    re_seq ([cls "Tt"; cls "Oo"; cls "Kk"; cls "Ee"; cls "Nn"]
            ++ secret_value 20) ].

Definition detect_secret_key (text : str) : bool :=
  any_search NOFLAGS secret_key_patterns text.

Definition username_label : list regex :=
  [cls "Uu"; cls "Ss"; cls "Ee"; cls "Rr"; cls "Nn"; cls "Aa"; cls "Mm";
   cls "Ee"].
Definition account_label : list regex :=
  [cls "Aa"; cls "Cc"; cls "Cc"; cls "Oo"; cls "Uu"; cls "Nn"; cls "Tt"].

(** [first\s*[:=].*second\s*[:=]] *)
Definition pair_pattern (first second : list regex) : regex :=
  re_seq (first ++ [star ws; assign; star Dot] ++ second ++ [star ws; assign]).

Definition credentials_patterns : list regex :=
  [ (* username: ... password: ... *)
    pair_pattern username_label password_label;
    (* account: ... password: ... *)
    pair_pattern account_label password_label;
    (* 登入: ... 密碼: ... *)
    pair_pattern [lit "登入"] [lit "密碼"] ].

(** The only detector that passes a flag: [re.search(pattern, text,
    re.DOTALL)]. *)
Definition detect_credentials (text : str) : bool :=
  any_search DOTALL credentials_patterns text.

(** [[a-zA-Z0-9._%+-]+@[a-zA-Z0-9.-]+\.[a-zA-Z]{2,}] *)
Definition email_pattern : regex :=
  re_seq [plus (Set_ false [rng "a" "z"; rng "A" "Z"; rng "0" "9"; chr ".";
                            chr "_"; chr "%"; chr "+"; chr "-"]);
          lit "@";
          plus (Set_ false [rng "a" "z"; rng "A" "Z"; rng "0" "9"; chr ".";
                            chr "-"]);
          lit ".";
          atleast 2 (Set_ false [rng "a" "z"; rng "A" "Z"])].

Definition password_pattern : regex :=
  re_seq (password_label ++ password_value).

Definition detect_email_password (text : str) : bool :=
  if search NOFLAGS email_pattern text
     && search NOFLAGS password_pattern text
  then true else false.

(** The shapes the specification speaks of, as tests on pieces of text. *)

(** [s] is [word] up to the case of its ASCII letters. *)
Definition casing_of (word : string) (s : str) : Prop :=
  map lower s = py word.

(** Optional whitespace. *)
Definition all_space (s : str) : bool := forallb is_space s.

(** An assignment operator, [:] or [=]. *)
Definition is_assign (c : N) : bool := (c =? 58)%N || (c =? 61)%N.

(** Optional quoting: nothing, or one double or single quote. *)
Definition opt_quote (q : str) : bool :=
  match q with
  | [] => true
  | [c] => (c =? DQUOTE)%N || (c =? SQUOTE)%N
  | _ => false
  end.

(** The optional separator of a two-word label: nothing, [_] or [-]. *)
Definition opt_separator (sep : str) : bool :=
  match sep with
  | [] => true
  | [c] => (c =? 95)%N || (c =? 45)%N
  | _ => false
  end.

(** [\s*], an operator, [\s*] and an optional quote, as they stand
    between a label and its value. *)
Definition assignment_ok (ws1 : str) (op : N) (ws2 q : str) : bool :=
  all_space ws1 && is_assign op && all_space ws2 && opt_quote q.

(** A character of [A-Za-z0-9_-]. *)
Definition key_char (c : N) : bool :=
  ((65 <=? c) && (c <=? 90) || (97 <=? c) && (c <=? 122)
   || (48 <=? c) && (c <=? 57) || (c =? 95) || (c =? 45))%N.

(** A character that is neither whitespace nor a quote. *)
Definition value_char (c : N) : bool :=
  negb (is_space c || (c =? DQUOTE)%N || (c =? SQUOTE)%N).

(** The value shape of the secret detector after a label: the
    assignment, then at least [n] characters of [A-Za-z0-9_-]. *)
Definition secret_assignment (n : nat) (ws1 : str) (op : N) (ws2 q val : str)
  : bool :=
  assignment_ok ws1 op ws2 q && forallb key_char val
  && Nat.leb n (List.length val).

(** The value shape of the password detector after a label: the
    assignment, then at least [n] characters that are neither whitespace
    nor quotes. *)
Definition password_assignment (n : nat) (ws1 : str) (op : N)
           (ws2 q val : str) : bool :=
  assignment_ok ws1 op ws2 q && forallb value_char val
  && Nat.leb n (List.length val).

(** The labels the password detector takes. *)
Definition password_labels (lab : str) : Prop :=
  casing_of "password" lab \/ casing_of "pwd" lab
  \/ lab = py "pass" \/ lab = py "Pass" \/ lab = py "密碼".

(** The two labels of a credential pair, as the three patterns of
    [detect_credentials] pair them. *)
Definition paired_labels (lab1 lab2 : str) : Prop :=
  (casing_of "username" lab1 /\ casing_of "password" lab2)
  \/ (casing_of "account" lab1 /\ casing_of "password" lab2)
  \/ (lab1 = py "登入" /\ lab2 = py "密碼").

(** The two labels of a credential pair, each taken freely from its
    list of alternatives. *)
Definition any_two_labels (lab1 lab2 : str) : Prop :=
  (casing_of "username" lab1 \/ casing_of "account" lab1
   \/ lab1 = py "登入")
  /\ (casing_of "password" lab2 \/ lab2 = py "密碼").

(** The texts that hold a match of one pattern of a list. *)
Definition group_signature (f : flags) (patterns : list regex) (t : str)
  : Prop :=
  Exists (fun p => contains f p t) patterns.

End Detect.

(* ================================================================== *)
(** ** Py: values, exceptions and effects *)

Module Py.

Import Text.

(** What [json.loads] can return.  A [dict] is kept as its list of items;
    [get] takes the first item of a key.  Of a [float] the program only
    ever observes its truth value, so only that is kept. *)
Inductive pyval :=
| PyNone
| PyBool (b : bool)
| PyInt (z : Z)
| PyFloat (is_zero : bool)
| PyStr (s : str)
| PyList (l : list pyval)
| PyDict (items : list (str * pyval)).

Definition pydict := list (str * pyval).

(** [bool(v)], as [if not prompt] tests it. *)
Definition truthy (v : pyval) : bool :=
  match v with
  | PyNone => false
  | PyBool b => b
  | PyInt z => negb (Z.eqb z 0)
  | PyFloat is_zero => negb is_zero
  | PyStr s => match s with [] => false | _ => true end
  | PyList l => match l with [] => false | _ => true end
  | PyDict d => match d with [] => false | _ => true end
  end.

Definition type_name (v : pyval) : str :=
  match v with
  | PyNone => py "NoneType"
  | PyBool _ => py "bool"
  | PyInt _ => py "int"
  | PyFloat _ => py "float"
  | PyStr _ => py "str"
  | PyList _ => py "list"
  | PyDict _ => py "dict"
  end.

Definition str_eqb (a b : str) : bool :=
  if list_eq_dec N.eq_dec a b then true else false.

Fixpoint lookup (d : pydict) (key : str) : option pyval :=
  match d with
  | [] => None
  | (k, v) :: rest => if str_eqb k key then Some v else lookup rest key
  end.

(** The field [key] of a JSON value: an object has the fields of its
    items, any other value has none. *)
Definition field (data : pyval) (key : str) : option pyval :=
  match data with
  | PyDict d => lookup d key
  | _ => None
  end.

(** The exceptions the program can meet; all are subclasses of
    [Exception]. *)
Inductive exn_class :=
| JSONDecodeError | UnicodeDecodeError | AttributeError | TypeError
| ValueError | RecursionError | OSError.

Record exn := { class_of : exn_class; str_of : str }.

Definition is_JSONDecodeError (e : exn) : bool :=
  match class_of e with
  | JSONDecodeError => true
  | _ => false
  end.

Inductive outcome (A : Type) :=
| Ok (a : A)
| Raise (e : exn).
Arguments Ok {A} a.
Arguments Raise {A} e.

(** The world [main] acts on: what has been written to standard output
    (each write is the [result] dict handed to [json.dumps]), and a ghost
    record of the detectors that have been called, in call order. *)
Record world := {
  stdout : list pydict;
  called : list string
}.

Definition M (A : Type) : Type := world -> outcome A * world.

Definition ret {A} (a : A) : M A := fun w => (Ok a, w).

Definition bind {A B} (m : M A) (k : A -> M B) : M B :=
  fun w =>
    match m w with
    | (Ok a, w') => k a w'
    | (Raise e, w') => (Raise e, w')
    end.

Definition raise {A} (e : exn) : M A := fun w => (Raise e, w).

Definition lift {A} (o : outcome A) : M A := fun w => (o, w).

(** [try: body except ...: handler]; [handler e] is [None] when no
    [except] clause takes [e], which then goes on propagating. *)
Definition try_except {A} (body : M A) (handler : exn -> option (M A)) : M A :=
  fun w =>
    match body w with
    | (Ok a, w') => (Ok a, w')
    | (Raise e, w') =>
        match handler e with
        | Some h => h w'
        | None => (Raise e, w')
        end
    end.

(** [sys.stdout.buffer.write(json.dumps(result, ...).encode('utf-8'))]
    followed by [flush()].  The output can refuse the write (a closed or
    full standard output raises [OSError]): [error] is [Some e] when this
    write raises [e], and nothing is then written. *)
Definition write (error : option exn) (result : pydict) : M unit :=
  fun w =>
    match error with
    | None =>
        (Ok tt, {| stdout := stdout w ++ [result]; called := called w |})
    | Some e => (Raise e, w)
    end.

(** Ghost: detector [name] is being called. *)
Definition note (name : string) : M unit :=
  fun w => (Ok tt, {| stdout := stdout w; called := called w ++ [name] |}).

(** The world before anything is written or called. *)
Definition empty_world : world := {| stdout := []; called := [] |}.

(** [m], run from [w], ends with outcome [o], having written [out] and
    called the detectors [names]. *)
Definition runs_to {A} (m : M A) (w : world) (o : outcome A)
           (out : list pydict) (names : list string) : Prop :=
  fst (m w) = o
  /\ stdout (snd (m w)) = stdout w ++ out
  /\ called (snd (m w)) = called w ++ names.

(** [data.get(key, default)]: only a [dict] has the method. *)
Definition get (data : pyval) (key : str) (default : pyval) : M pyval :=
  match data with
  | PyDict d =>
      ret (match lookup d key with Some v => v | None => default end)
  | _ =>
      raise {| class_of := AttributeError;
               str_of := py "'" ++ type_name data
                         ++ py "' object has no attribute 'get'" |}
  end.

End Py.

Declare Scope py_scope.
Delimit Scope py_scope with py.
Notation "x <- m ;; k" := (Py.bind m (fun x => k))
  (at level 61, m at next level, right associativity) : py_scope.
Notation "m ;; k" := (Py.bind m (fun _ => k))
  (at level 61, right associativity) : py_scope.

(* ================================================================== *)
(** ** Hook: the decision engine and the adapter *)

Module Hook.

Import Text Regex Detect Py.
Local Open Scope py_scope.

Definition MSG_API_KEY : str :=
  Eval vm_compute in py "檢測到 API Key，請勿在提示中包含 API Key 等敏感資訊".
Definition MSG_PASSWORD : str :=
  Eval vm_compute in py "檢測到密碼資訊，請勿在提示中包含密碼等敏感資訊".
Definition MSG_SECRET_KEY : str :=
  Eval vm_compute in py "檢測到 Secret Key 或 Token，請勿在提示中包含此類敏感資訊".
Definition MSG_CREDENTIALS : str :=
  Eval vm_compute in py "檢測到帳號密碼組合，請勿在提示中包含帳號密碼等敏感資訊".
Definition MSG_EMAIL_PASSWORD : str :=
  Eval vm_compute in py "檢測到電子郵件和密碼組合，請勿在提示中包含此類敏感資訊".

(** The literals are decoded once, here, so that a message is the plain
    list of its code points. *)

(** One entry of [checks]: the detector (with its name, for the ghost
    record) and its warning. *)
Record check := {
  check_name : string;
  check_func : str -> bool;
  warning_msg : str
}.

Definition checks : list check :=
  [ {| check_name := "detect_api_key"; check_func := detect_api_key;
       warning_msg := MSG_API_KEY |};
    {| check_name := "detect_password"; check_func := detect_password;
       warning_msg := MSG_PASSWORD |};
    {| check_name := "detect_secret_key"; check_func := detect_secret_key;
       warning_msg := MSG_SECRET_KEY |};
    {| check_name := "detect_credentials"; check_func := detect_credentials;
       warning_msg := MSG_CREDENTIALS |};
    {| check_name := "detect_email_password";
       check_func := detect_email_password;
       warning_msg := MSG_EMAIL_PASSWORD |} ].

(** [check_func(prompt)].  The detectors are annotated [text: str]; on
    any other value their first [re.search] raises [TypeError]. *)
Definition call (c : check) (prompt : pyval) : M bool :=
  note (check_name c) ;;
  match prompt with
  | PyStr text => ret (check_func c text)
  | _ =>
      raise {| class_of := TypeError;
               str_of := py "expected string or bytes-like object, got '"
                         ++ type_name prompt ++ py "'" |}
  end.

(** [for check_func, warning_msg in checks: ...] and the [return False, ""]
    after the loop. *)
Fixpoint for_checks (cs : list check) (prompt : pyval) : M (bool * str) :=
  match cs with
  | [] => ret (false, [])
  | c :: rest =>
      fired <- call c prompt ;;
      if fired then ret (true, warning_msg c) else for_checks rest prompt
  end.

Definition check_sensitive_info (prompt : pyval) : M (bool * str) :=
  for_checks checks prompt.

(** What the loop returns on a text, and the detectors it calls on the
    way, read off without the effects. *)
Fixpoint verdict (cs : list check) (text : str) : bool * str :=
  match cs with
  | [] => (false, [])
  | c :: rest =>
      if check_func c text then (true, warning_msg c) else verdict rest text
  end.

Fixpoint evaluated (cs : list check) (text : str) : list string :=
  match cs with
  | [] => []
  | c :: rest =>
      check_name c ::
      (if check_func c text then [] else evaluated rest text)
  end.


(** The three shapes of [result]. *)
Definition CONTINUE : str := Eval vm_compute in py "continue".
Definition USER_MESSAGE : str := Eval vm_compute in py "user_message".

Definition allow : pydict := [(CONTINUE, PyBool true)].
Definition allow_with (message : str) : pydict :=
  [(CONTINUE, PyBool true); (USER_MESSAGE, PyStr message)].
Definition deny (message : str) : pydict :=
  [(CONTINUE, PyBool false); (USER_MESSAGE, PyStr message)].

(** The fixed parts of the two f-strings. *)
Definition JSON_ERROR_PREFIX : str :=
  Eval vm_compute in py "JSON 解析錯誤: ".
Definition ERROR_PREFIX : str :=
  Eval vm_compute in py "檢查過程中發生錯誤: ".

(** The four write statements of [main], by what they answer: the JSON
    error (line 118), the missing prompt (line 129), the verdict (line
    148) and the unexpected error (line 158).  A run reaches each of them
    at most once. *)
Inductive site := ParseErrorWrite | NoPromptWrite | ResultWrite | HandlerWrite.

(** An output that accepts every write. *)
Definition writable : site -> option exn := fun _ => None.

Section Main.

(** What the output does with the write of each site. *)
Variable stdout_error : site -> option exn.

(** The two library calls that read the input: [bytes.decode('utf-8')]
    and [json.loads]. *)
Variable decode_utf8 : list N -> outcome str.
Variable json_loads : str -> outcome pyval.

(** The inner [try]: [Some data] when [json.loads] returns, [None] when
    the [except json.JSONDecodeError] clause has answered and returned. *)
Definition parse (input_data : str) : M (option pyval) :=
  try_except
    (data <- lift (json_loads input_data) ;; ret (Some data))
    (fun e =>
       if is_JSONDecodeError e
       then Some (write (stdout_error ParseErrorWrite)
                        (allow_with (JSON_ERROR_PREFIX ++ str_of e)) ;;
                  ret None)
       else None).

Definition main_on (stdin : list N) : M unit :=
  try_except
    (input_data <- lift (decode_utf8 stdin) ;;
     parsed <- parse input_data ;;
     match parsed with
     | None => ret tt
     | Some data =>
         prompt <- get data (py "prompt") (PyStr []) ;;
         if negb (truthy prompt)
         then write (stdout_error NoPromptWrite) allow
         else
           r <- check_sensitive_info prompt ;;
           let '(has_sensitive, warning_msg) := r in
           write (stdout_error ResultWrite)
                 (if has_sensitive then deny warning_msg else allow)
     end)
    (fun e => Some (write (stdout_error HandlerWrite)
                          (allow_with (ERROR_PREFIX ++ str_of e)))).

(** What the outer handler makes of the exception [e]: its response,
    or the exception of its own write, which nothing catches. *)
Definition handler_answer (e : exn) : outcome unit * list pydict :=
  match stdout_error HandlerWrite with
  | None => (Ok tt, [allow_with (ERROR_PREFIX ++ str_of e)])
  | Some e' => (Raise e', [])
  end.

(** What becomes of a response the [try] body writes at site [s]: it is
    written, or the write raises and the outer handler takes over. *)
Definition body_answer (s : site) (result : pydict)
  : outcome unit * list pydict :=
  match stdout_error s with
  | None => (Ok tt, [result])
  | Some e => handler_answer e
  end.

(** What [data.get("prompt", "")] returns on a dict of items [d]. *)
Definition prompt_of (d : pydict) : pyval :=
  match lookup d (py "prompt") with
  | Some v => v
  | None => PyStr []
  end.


(** The input cannot be parsed: its bytes do not decode, or
    [json.loads] raises. *)
Definition unparsable (stdin : list N) (e : exn) : Prop :=
  decode_utf8 stdin = Raise e \/
  exists input_data,
    decode_utf8 stdin = Ok input_data /\ json_loads input_data = Raise e.

End Main.

(** [main] on an output that accepts every write. *)
Definition main (decode_utf8 : list N -> outcome str)
           (json_loads : str -> outcome pyval) (stdin : list N) : M unit :=
  main_on writable decode_utf8 json_loads stdin.

End Hook.

(* ================================================================== *)
(** ** Shapes: what the patterns ask of a text *)

Module Shapes.

Import Text Regex Detect Py.

(** [s] occurs in [t]. *)
Definition infix (s t : str) : Prop := exists a b, t = a ++ s ++ b.

(** The least number of characters a match of [r] has. *)
Fixpoint min_len (r : regex) : nat :=
  match r with
  | Empty => 0
  | Eps => 0
  | Set_ _ _ => 1
  | Dot => 1
  | Cat r1 r2 => min_len r1 + min_len r2
  | Alt r1 r2 => Nat.min (min_len r1) (min_len r2)
  | Rep r lo _ => lo * min_len r
  end.

(** A class that lists single characters only, all of them in [p]. *)
Definition only_chars (p : N -> bool) (items : list item) : bool :=
  forallb (fun i => match i with Chr c => p c | _ => false end) items.

(** [requires p r]: by the shape of [r] alone, every match of [r] holds a
    character of [p]. *)
Fixpoint requires (p : N -> bool) (r : regex) : bool :=
  match r with
  | Empty => true
  | Eps => false
  | Set_ neg items => negb neg && only_chars p items
  | Dot => false
  | Cat r1 r2 => requires p r1 || requires p r2
  | Alt r1 r2 => requires p r1 && requires p r2
  | Rep r lo _ => negb (Nat.eqb lo 0) && requires p r
  end.

(** The bracket classes of the vendor-key and email patterns. *)
Definition ALNUM : list item :=                      (* [A-Za-z0-9]      *)
  [rng "A" "Z"; rng "a" "z"; rng "0" "9"].
Definition GOOGLE : list item :=                     (* [0-9A-Za-z_-]    *)
  [rng "0" "9"; rng "A" "Z"; rng "a" "z"; chr "_"; chr "-"].
Definition AWS : list item :=                        (* [0-9A-Z]         *)
  [rng "0" "9"; rng "A" "Z"].
Definition BASE64 : list item :=                     (* [0-9a-zA-Z/+]    *)
  [rng "0" "9"; rng "a" "z"; rng "A" "Z"; chr "/"; chr "+"].
Definition EMAIL_LOCAL : list item :=                (* [a-zA-Z0-9._%+-] *)
  [rng "a" "z"; rng "A" "Z"; rng "0" "9"; chr "."; chr "_"; chr "%";
   chr "+"; chr "-"].
Definition EMAIL_DOMAIN : list item :=               (* [a-zA-Z0-9.-]    *)
  [rng "a" "z"; rng "A" "Z"; rng "0" "9"; chr "."; chr "-"].
Definition LETTERS : list item :=                    (* [a-zA-Z]         *)
  [rng "a" "z"; rng "A" "Z"].

(** A run of at least [n] characters of a class. *)
Definition run_of (items : list item) (n : nat) (s : str) : bool :=
  forallb (in_set false items) s && Nat.leb n (List.length s).

(** The label of the API-key patterns: "api" and "key" in any casing,
    joined by nothing, [_] or [-]. *)
Definition api_key_label_shape (lab : str) : Prop :=
  exists api sep key,
    lab = api ++ sep ++ key
    /\ casing_of "api" api /\ opt_separator sep = true
    /\ casing_of "key" key.

(** The three vendor tokens: [sk-] and 32 or more alphanumerics, [AIza]
    and 35 or more of its class, [AKIA] and 16 or more upper-case
    alphanumerics. *)
Definition vendor_token (tok : str) : Prop :=
  (exists run, tok = py "sk-" ++ run /\ run_of ALNUM 32 run = true)
  \/ (exists run, tok = py "AIza" ++ run /\ run_of GOOGLE 35 run = true)
  \/ (exists run, tok = py "AKIA" ++ run /\ run_of AWS 16 run = true).

(** An email address as the fifth detector looks for it. *)
Definition email_shape (s : str) : Prop :=
  exists local domain tld,
    s = local ++ py "@" ++ domain ++ py "." ++ tld
    /\ run_of EMAIL_LOCAL 1 local = true
    /\ run_of EMAIL_DOMAIN 1 domain = true
    /\ run_of LETTERS 2 tld = true.

(** A password assignment as the fifth detector looks for it. *)
Definition password_shape (s : str) : Prop :=
  exists lab ws1 op ws2 q val,
    s = lab ++ ws1 ++ [op] ++ ws2 ++ q ++ val
    /\ casing_of "password" lab
    /\ password_assignment 6 ws1 op ws2 q val = true.

(** The labels of the first and the third secret pattern, with the least
    length of their value. *)
Definition secret_label_shape (lab : str) (n : nat) : Prop :=
  (casing_of "secret" lab /\ n = 16%nat)
  \/ (casing_of "token" lab /\ n = 20%nat).

(** The JSON values that count as false in [if not prompt]. *)
Definition falsy (v : pyval) : Prop :=
  v = PyNone \/ v = PyBool false \/ v = PyInt 0 \/ v = PyFloat true
  \/ v = PyStr [] \/ v = PyList [] \/ v = PyDict [].

End Shapes.

(* ================================================================== *)
(** ** Signatures: the detectors as section 4.1 of the specification
    words them *)

Module Signatures.

Import Text Regex Detect Shapes.

(** A text holds a piece of a given shape. *)
Definition holds (shape : str -> Prop) (t : str) : Prop :=
  exists m, shape m /\ infix m t.
















End Signatures.

(* ================================================================== *)
(** * Properties *)

(** ** The matcher computes the declarative meaning *)

Module RegexFacts.

Import Text Regex.

Section Correct.

Variable f : flags.

Lemma matches_Empty s : ~ matches f Empty s.
Proof. intro H; inversion H. Qed.

Lemma matches_Eps s : matches f Eps s -> s = [].
Proof. intro H; inversion H; reflexivity. Qed.

Lemma matches_Cat r1 r2 s :
  matches f (Cat r1 r2) s ->
  exists s1 s2, s = s1 ++ s2 /\ matches f r1 s1 /\ matches f r2 s2.
Proof. intro H; inversion H; subst; eauto. Qed.

Lemma matches_Alt r1 r2 s :
  matches f (Alt r1 r2) s -> matches f r1 s \/ matches f r2 s.
Proof. intro H; inversion H; subst; auto. Qed.

Lemma cat_sound r1 r2 s :
  matches f (cat r1 r2) s ->
  exists s1 s2, s = s1 ++ s2 /\ matches f r1 s1 /\ matches f r2 s2.
Proof.
  destruct r1, r2; simpl; intro H;
    try (exfalso; exact (matches_Empty H));
    try (apply matches_Cat; exact H);
    exists [], s; repeat split; auto using MEps.
Qed.

Lemma cat_complete r1 r2 s1 s2 :
  matches f r1 s1 -> matches f r2 s2 -> matches f (cat r1 r2) (s1 ++ s2).
Proof.
  intros H1 H2.
  destruct r1, r2; simpl;
    try (exfalso; eapply matches_Empty; eassumption);
    try (apply MCat; assumption);
    apply matches_Eps in H1; subst; exact H2.
Qed.

Lemma alt_sound r1 r2 s :
  matches f (alt r1 r2) s -> matches f r1 s \/ matches f r2 s.
Proof.
  destruct r1, r2; simpl; intro H; auto using matches_Alt.
Qed.

Lemma alt_complete r1 r2 s :
  matches f r1 s \/ matches f r2 s -> matches f (alt r1 r2) s.
Proof.
  intros [H | H]; destruct r1, r2; simpl;
    try (exfalso; eapply matches_Empty; eassumption);
    auto using MAltL, MAltR.
Qed.

Lemma matches_nil_nullable r s :
  matches f r s -> s = [] -> nullable r = true.
Proof.
  induction 1; intro E; simpl; auto; try discriminate.
  - apply app_eq_nil in E as [-> ->].
    rewrite IHmatches1, IHmatches2; auto.
  - rewrite IHmatches; auto.
  - rewrite IHmatches; auto using orb_true_r.
  - apply app_eq_nil in E as [-> ->].
    specialize (IHmatches1 eq_refl). specialize (IHmatches2 eq_refl).
    destruct lo as [|lo]; [reflexivity|].
    rewrite IHmatches1, andb_true_r.
    simpl in IHmatches2.
    destruct hi as [[|h]|]; simpl in *; try discriminate; auto.
    destruct lo as [|lo]; [reflexivity|].
    apply andb_true_iff in IHmatches2 as [Hw _].
    destruct h; [discriminate|exact Hw].
Qed.

Lemma rep_nil r : matches f r [] ->
  forall lo hi, within lo hi = true -> matches f (Rep r lo hi) [].
Proof.
  intros Hr lo. induction lo as [|lo IH]; intros hi Hw.
  - apply MRepDone.
  - change (@nil N) with (@nil N ++ @nil N).
    apply MRepMore; auto.
    + destruct hi as [[|h]|]; simpl in *; auto; discriminate.
    + apply IH. destruct hi as [[|h]|]; simpl in *; auto; discriminate.
Qed.

Lemma nullable_matches_nil r : nullable r = true -> matches f r [].
Proof.
  induction r; simpl; intro H; try discriminate.
  - apply MEps.
  - apply andb_true_iff in H as [H1 H2].
    change (@nil N) with (@nil N ++ @nil N). apply MCat; auto.
  - apply orb_true_iff in H as [H | H]; auto using MAltL, MAltR.
  - destruct lo as [|lo]; [apply MRepDone|].
    apply andb_true_iff in H as [Hw Hn].
    apply rep_nil; auto.
Qed.

Lemma nullable_correct r : nullable r = true <-> matches f r [].
Proof.
  split; [apply nullable_matches_nil|].
  intro H; eapply matches_nil_nullable; eauto.
Qed.

Lemma deriv_sound c r : forall s,
  matches f (deriv f c r) s -> matches f r (c :: s).
Proof.
  induction r; simpl; intros s H.
  - inversion H.
  - inversion H.
  - destruct (in_set negated items c) eqn:E; inversion H; subst.
    apply MSet; exact E.
  - destruct (dot_accepts f c) eqn:E; inversion H; subst.
    apply MDot; exact E.
  - assert (Hl : forall t, matches f (cat (deriv f c r1) r2) t ->
                           matches f (Cat r1 r2) (c :: t)).
    { intros t Ht. apply cat_sound in Ht as (s1 & s2 & -> & H1 & H2).
      change (c :: s1 ++ s2) with ((c :: s1) ++ s2). apply MCat; auto. }
    destruct (nullable r1) eqn:E; auto.
    apply alt_sound in H as [H | H]; auto.
    change (c :: s) with ([] ++ c :: s).
    apply MCat; auto. apply nullable_correct; exact E.
  - apply alt_sound in H as [H | H]; auto using MAltL, MAltR.
  - destruct (hi_zero hi) eqn:E; [inversion H|].
    apply cat_sound in H as (s1 & s2 & -> & H1 & H2).
    change (c :: s1 ++ s2) with ((c :: s1) ++ s2). apply MRepMore; auto.
Qed.

Lemma deriv_complete r s0 :
  matches f r s0 -> forall c s, s0 = c :: s -> matches f (deriv f c r) s.
Proof.
  induction 1; intros a t E; simpl; try discriminate.
  - injection E as E1 E2; subst. rewrite H. apply MEps.
  - injection E as E1 E2; subst. rewrite H. apply MEps.
  - destruct s1 as [|x s1].
    + simpl in E. subst s2.
      rewrite (matches_nil_nullable H eq_refl).
      apply alt_complete. right. eauto.
    + injection E as E1 E2; subst.
      assert (Hc : matches f (cat (deriv f a r1) r2) (s1 ++ s2))
        by (apply cat_complete; eauto).
      destruct (nullable r1); [apply alt_complete; left|]; exact Hc.
  - apply alt_complete; left; eauto.
  - apply alt_complete; right; eauto.
  - rewrite H. destruct s1 as [|x s1].
    + simpl in E. subst s2.
      specialize (IHmatches2 a t eq_refl). simpl in IHmatches2.
      destruct (hi_zero (pred_hi hi)) eqn:E2; [inversion IHmatches2|].
      apply cat_sound in IHmatches2 as (t1 & t2 & -> & H2 & H3).
      apply cat_complete; auto.
      change t2 with ([] ++ t2). apply MRepMore; auto.
    + injection E as E1 E2; subst. apply cat_complete; eauto.
Qed.

Lemma deriv_correct c r s :
  matches f (deriv f c r) s <-> matches f r (c :: s).
Proof.
  split; [apply deriv_sound | intro H; eapply deriv_complete; eauto].
Qed.

(** [match_here] finds exactly the matching prefixes. *)
Lemma match_here_correct s : forall r,
  match_here f r s = true <-> exists p q, s = p ++ q /\ matches f r p.
Proof.
  induction s as [|c s IH]; intro r; simpl.
  - rewrite orb_false_r, nullable_correct. split.
    + intro H. exists [], []. auto.
    + intros (p & q & E & H). symmetry in E.
      apply app_eq_nil in E as [-> _]. exact H.
  - rewrite orb_true_iff, nullable_correct, IH. split.
    + intros [H | (p & q & -> & H)].
      * exists [], (c :: s). auto.
      * exists (c :: p), q. split; [reflexivity|].
        apply deriv_correct; exact H.
    + intros ([|x p] & q & E & H); [left; exact H|].
      injection E as E1 E2; subst. right. exists p, q. split; [reflexivity|].
      apply deriv_correct; exact H.
Qed.

(** [search] decides [contains]: [re.search] finds a match exactly when
    some substring of the text is in the language of the pattern. *)
Theorem search_correct r s :
  search f r s = true <-> contains f r s.
Proof.
  unfold contains. induction s as [|c s IH].
  - change (search f r []) with (match_here f r [] || false).
    rewrite orb_false_r, match_here_correct. split.
    + intros (p & q & E & H). exists [], p, q. auto.
    + intros (a & m & b & E & H). symmetry in E.
      apply app_eq_nil in E as [-> E]. apply app_eq_nil in E as [-> ->].
      exists [], []. auto.
  - change (search f r (c :: s))
      with (match_here f r (c :: s) || search f r s).
    rewrite orb_true_iff, match_here_correct, IH. split.
    + intros [(p & q & E & H) | (a & m & b & -> & H)].
      * exists [], p, q. auto.
      * exists (c :: a), m, b. auto.
    + intros ([|x a] & m & b & E & H).
      * left. exists m, b. auto.
      * injection E as E1 E2; subst. right. exists a, m, b. auto.
Qed.

Lemma search_intro r a m b :
  matches f r m -> search f r (a ++ m ++ b) = true.
Proof. intro H. apply search_correct. exists a, m, b. auto. Qed.

(** *** Building matches of sequences and repetitions *)

Lemma seq_nil : matches f (re_seq []) [].
Proof. apply MEps. Qed.

Lemma seq_cons r rs a b :
  matches f r a -> matches f (re_seq rs) b ->
  matches f (re_seq (r :: rs)) (a ++ b).
Proof. intros; simpl; apply MCat; assumption. Qed.

Lemma seq_app rs1 : forall rs2 a b,
  matches f (re_seq rs1) a -> matches f (re_seq rs2) b ->
  matches f (re_seq (rs1 ++ rs2)) (a ++ b).
Proof.
  induction rs1 as [|r rs1 IH]; simpl; intros rs2 a b Ha Hb.
  - apply matches_Eps in Ha; subst; exact Hb.
  - apply matches_Cat in Ha as (a1 & a2 & -> & H1 & H2).
    rewrite <- app_assoc. apply MCat; auto.
Qed.

(** A sequence of one-character patterns takes a text character by
    character. *)
Lemma seq_chars rs : forall s,
  Forall2 (fun r c => matches f r [c]) rs s -> matches f (re_seq rs) s.
Proof.
  induction rs as [|r rs IH]; intros s H; inversion H; subst.
  - apply seq_nil.
  - change (y :: l') with ([y] ++ l'). apply seq_cons; auto.
Qed.

(** A repetition takes any run of the right length whose characters the
    repeated pattern takes. *)
Lemma rep_chars r s : forall lo hi,
  Forall (fun c => matches f r [c]) s ->
  (lo <= List.length s)%nat -> within (List.length s) hi = true ->
  matches f (Rep r lo hi) s.
Proof.
  induction s as [|c s IH]; intros lo hi Hs Hlo Hhi; simpl in *.
  - assert (lo = 0%nat) by lia. subst. apply MRepDone.
  - inversion Hs; subst.
    change (c :: s) with ([c] ++ s). apply MRepMore; auto.
    + destruct hi as [[|h]|]; simpl in *; auto; discriminate.
    + apply IH; auto; [lia|].
      destruct hi as [[|h]|]; simpl in *; auto; discriminate.
Qed.

Lemma opt_none r : matches f (opt r) [].
Proof. apply MRepDone. Qed.

Lemma opt_one r c : matches f r [c] -> matches f (opt r) [c].
Proof.
  intro H. apply rep_chars; simpl; auto.
Qed.

End Correct.

End RegexFacts.

(** ** The detectors and their signatures *)

Module DetectFacts.

Import Text Regex Detect RegexFacts.
Local Open Scope N_scope.

Lemma any_search_correct f ps t :
  any_search f ps t = true <-> group_signature f ps t.
Proof.
  unfold group_signature. induction ps as [|p ps IH]; simpl.
  - split; [discriminate | inversion 1].
  - destruct (search f p t) eqn:E.
    + split; auto. intros _. apply Exists_cons_hd.
      apply search_correct; exact E.
    + rewrite IH. split; [apply Exists_cons_tl|].
      intro H; inversion H; subst; auto.
      apply search_correct in H1. congruence.
Qed.

Lemma any_search_intro f ps p a m b :
  In p ps -> matches f p m -> any_search f ps (a ++ m ++ b) = true.
Proof.
  intros Hin Hm. apply any_search_correct. apply Exists_exists.
  exists p. split; auto. exists a, m, b. auto.
Qed.

(** The per-letter class [[Xx]] takes every casing of the letter. *)
Lemma ci_letter f u l c :
  u + 32 = l -> 65 <= u <= 90 -> lower c = l ->
  matches f (Set_ false [Chr u; Chr l]) [c].
Proof.
  intros Hul Hu Hc. apply MSet. unfold in_set, lower in *. simpl.
  destruct ((65 <=? c) && (c <=? 90)) eqn:E.
  - assert (c = u) by lia. subst.
    rewrite N.eqb_refl. reflexivity.
  - subst. rewrite N.eqb_refl. rewrite orb_true_r. reflexivity.
Qed.

Lemma lit_chars f l :
  Forall2 (fun r c => matches f r [c])
          (map (fun c => Set_ false [Chr c]) l) l.
Proof.
  induction l as [|c l IH]; simpl; constructor; auto.
  apply MSet. unfold in_set. simpl. rewrite N.eqb_refl. reflexivity.
Qed.

Lemma lit_matches f s : matches f (lit s) (py s).
Proof. unfold lit. apply seq_chars, lit_chars. Qed.

Lemma ws_chars f s :
  all_space s = true -> Forall (fun c => matches f ws [c]) s.
Proof.
  unfold all_space. intro H. apply Forall_forall. intros c Hc.
  apply MSet. unfold in_set. simpl.
  rewrite forallb_forall in H. rewrite (H c Hc). reflexivity.
Qed.

Lemma assign_char f c : is_assign c = true -> matches f assign [c].
Proof.
  intro H. apply MSet. unfold is_assign in H.
  unfold in_set. simpl. rewrite orb_false_r. exact H.
Qed.

Lemma quote_opt f q : opt_quote q = true -> matches f (opt quote) q.
Proof.
  destruct q as [|c [|d q]]; simpl; intro H; try discriminate.
  - apply opt_none.
  - apply opt_one. apply MSet. unfold in_set. simpl.
    rewrite orb_false_r. exact H.
Qed.

Lemma key_chars_run f s :
  forallb key_char s = true -> Forall (fun c => matches f key_chars [c]) s.
Proof.
  intro H. apply Forall_forall. intros c Hc.
  rewrite forallb_forall in H. specialize (H c Hc).
  apply MSet. unfold in_set. simpl. rewrite orb_false_r.
  unfold key_char in H. rewrite <- H.
  rewrite !orb_assoc. reflexivity.
Qed.

Lemma value_chars_run f s :
  forallb value_char s = true ->
  Forall (fun c => matches f value_chars [c]) s.
Proof.
  intro H. apply Forall_forall. intros c Hc.
  rewrite forallb_forall in H. specialize (H c Hc).
  apply MSet. unfold in_set, existsb, in_item.
  unfold value_char in H. apply negb_true_iff in H.
  rewrite orb_false_r, orb_assoc, H. reflexivity.
Qed.

(** The tail [\s*[:=]\s*Q?(C{n,})Q?] takes optional whitespace, an
    operator, optional whitespace, an optional quote and a run of at
    least [n] characters of [C]. *)
Lemma value_tail f (C : regex) n ws1 op ws2 q val :
  assignment_ok ws1 op ws2 q = true ->
  Forall (fun c => matches f C [c]) val -> (n <= List.length val)%nat ->
  matches f
    (re_seq [star ws; assign; star ws; opt quote; group (atleast n C);
             opt quote])
    (ws1 ++ [op] ++ ws2 ++ q ++ val).
Proof.
  unfold assignment_ok. rewrite !andb_true_iff.
  intros [[[H1 Hop] H2] Hq] Hval Hn.
  apply seq_cons; [apply rep_chars; auto using ws_chars; lia|].
  apply seq_cons; [apply assign_char; exact Hop|].
  apply seq_cons; [apply rep_chars; auto using ws_chars; lia|].
  apply seq_cons; [apply quote_opt; exact Hq|].
  rewrite <- (app_nil_r val).
  apply seq_cons; [apply rep_chars; auto|].
  apply (@seq_cons f (opt quote) [] [] []); [apply opt_none | apply seq_nil].
Qed.

Lemma separator_opt f sep :
  opt_separator sep = true -> matches f (opt (cls "_-")) sep.
Proof.
  destruct sep as [|c [|d sep]]; simpl; intro H; try discriminate.
  - apply opt_none.
  - apply opt_one. apply MSet. unfold in_set. simpl.
    rewrite orb_false_r. exact H.
Qed.

(** From [casing_of word s] to the characters of [s], one hypothesis
    [lower c = letter] each. *)
Ltac split_casing H :=
  unfold casing_of in H;
  match type of H with
  | _ = ?rhs => let v := eval vm_compute in rhs in change rhs with v in H
  end;
  repeat match type of H with
  | map lower ?s = _ :: _ =>
      let c := fresh "c" in
      let s' := fresh "s" in
      destruct s as [|c s']; [discriminate H|];
      simpl map in H;
      let Hc := fresh "Hc" in
      injection H as Hc H
  end;
  match type of H with
  | map lower ?s = [] => destruct s; [clear H | discriminate H]
  end.

(** A label written letter by letter as classes [[Xx]] takes every
    casing of its word. *)
Ltac solve_label label H :=
  split_casing H;
  let v := eval vm_compute in label in change label with v;
  apply seq_chars;
  repeat (constructor;
          [eapply ci_letter; [ | | eassumption]; [reflexivity | lia] | ]);
  constructor.

Lemma secret_label_takes f s :
  casing_of "secret" s -> matches f (re_seq secret_label) s.
Proof. intro H. solve_label secret_label H. Qed.

Lemma key_label_takes f s :
  casing_of "key" s -> matches f (re_seq [cls "Kk"; cls "Ee"; cls "Yy"]) s.
Proof.
  intro H. solve_label (@cons regex (cls "Kk") [cls "Ee"; cls "Yy"]) H.
Qed.

Lemma password_label_takes f s :
  casing_of "password" s -> matches f (re_seq password_label) s.
Proof. intro H. solve_label password_label H. Qed.

Lemma username_label_takes f s :
  casing_of "username" s -> matches f (re_seq username_label) s.
Proof. intro H. solve_label username_label H. Qed.

Lemma account_label_takes f s :
  casing_of "account" s -> matches f (re_seq account_label) s.
Proof. intro H. solve_label account_label H. Qed.

Lemma lit_label_takes f w : matches f (re_seq [lit w]) (py w).
Proof.
  rewrite <- (app_nil_r (py w)).
  apply seq_cons; [apply lit_matches | apply seq_nil].
Qed.

Lemma pwd_label_takes f s :
  casing_of "pwd" s -> matches f (re_seq [cls "Pp"; cls "Ww"; cls "Dd"]) s.
Proof.
  intro H. solve_label (@cons regex (cls "Pp") [cls "Ww"; cls "Dd"]) H.
Qed.

Lemma pass_label_takes f s :
  s = py "pass" \/ s = py "Pass" ->
  matches f (re_seq [cls "Pp"; lit "ass"]) s.
Proof.
  intros [-> | ->].
  - apply (@seq_cons f (cls "Pp") [lit "ass"] [112%N] (py "ass"));
      [apply MSet; reflexivity | apply lit_label_takes].
  - apply (@seq_cons f (cls "Pp") [lit "ass"] [80%N] (py "ass"));
      [apply MSet; reflexivity | apply lit_label_takes].
Qed.

(** What the password detector does take: "password" and "pwd" in any
    casing, "pass" and "Pass", and "密碼", followed by the assignment
    and a value of at least 6 characters. *)
Lemma detect_password_labels
      (pre lab ws1 ws2 q val post : str) (op : N) :
  password_labels lab ->
  password_assignment 6 ws1 op ws2 q val = true ->
  detect_password (pre ++ (lab ++ ws1 ++ [op] ++ ws2 ++ q ++ val) ++ post)
  = true.
Proof.
  intros Hlab Hval. unfold password_assignment in Hval.
  apply andb_true_iff in Hval as [Hval Hlen].
  apply andb_true_iff in Hval as [Hok Hchars].
  apply Nat.leb_le in Hlen.
  assert (Htail : matches NOFLAGS (re_seq password_value)
                          (ws1 ++ [op] ++ ws2 ++ q ++ val))
    by (apply value_tail; auto using value_chars_run).
  unfold detect_password.
  destruct Hlab as [H | [H | [H | [H | ->]]]].
  - apply any_search_intro
      with (p := re_seq (password_label ++ password_value));
      [left; reflexivity|].
    apply seq_app; auto using password_label_takes.
  - apply any_search_intro
      with (p := re_seq ([cls "Pp"; cls "Ww"; cls "Dd"] ++ password_value));
      [right; left; reflexivity|].
    apply seq_app; auto using pwd_label_takes.
  - apply any_search_intro
      with (p := re_seq ([cls "Pp"; lit "ass"] ++ password_value));
      [right; right; left; reflexivity|].
    apply seq_app; auto using pass_label_takes.
  - apply any_search_intro
      with (p := re_seq ([cls "Pp"; lit "ass"] ++ password_value));
      [right; right; left; reflexivity|].
    apply seq_app; auto using pass_label_takes.
  - apply any_search_intro
      with (p := re_seq ([lit "密碼"] ++ password_value));
      [right; right; right; left; reflexivity|].
    apply seq_app; auto using lit_label_takes.
Qed.

(** [first\s*[:=].*second\s*[:=]] under [re.DOTALL] takes the two labels
    with anything at all in between. *)
Lemma pair_pattern_takes first second lab1 ws1 op1 mid lab2 ws2 op2 :
  matches DOTALL (re_seq first) lab1 ->
  matches DOTALL (re_seq second) lab2 ->
  all_space ws1 = true -> is_assign op1 = true ->
  all_space ws2 = true -> is_assign op2 = true ->
  matches DOTALL (pair_pattern first second)
          (lab1 ++ (ws1 ++ [op1] ++ mid) ++ lab2 ++ (ws2 ++ [op2])).
Proof.
  intros Hf Hs Hw1 Ho1 Hw2 Ho2. unfold pair_pattern.
  apply seq_app; [exact Hf|].
  apply seq_app; [|apply seq_app; [exact Hs|]].
  - apply seq_cons; [apply rep_chars; auto using ws_chars; lia|].
    apply seq_cons; [apply assign_char; exact Ho1|].
    rewrite <- (app_nil_r mid).
    apply seq_cons; [|apply seq_nil].
    apply rep_chars; auto; [|lia].
    apply Forall_forall. intros c _. apply MDot. reflexivity.
  - apply seq_cons; [apply rep_chars; auto using ws_chars; lia|].
    apply (@seq_cons DOTALL assign [] [op2] []);
      [apply assign_char; exact Ho2 | apply seq_nil].
Qed.

End DetectFacts.

(** ** The runs of [check_sensitive_info] and [main] *)

Module HookFacts.

Import Text Regex Detect Py Hook.
Local Open Scope py_scope.

(** On a text the loop never raises: it returns [verdict] and calls the
    detectors of [evaluated], writing nothing. *)
Lemma for_checks_str cs t : forall w,
  runs_to (for_checks cs (PyStr t)) w (Ok (verdict cs t)) []
          (evaluated cs t).
Proof.
  unfold runs_to. induction cs as [|c cs IH]; intro w; simpl.
  - rewrite !app_nil_r. auto.
  - unfold bind, call, note. simpl.
    destruct (check_func c t); simpl.
    + rewrite app_nil_r. auto.
    + specialize (IH {| stdout := stdout w;
                        called := called w ++ [check_name c] |}).
      destruct IH as (H1 & H2 & H3). simpl in *.
      rewrite H1, H2, H3, <- app_assoc. auto.
Qed.

(** On anything but a text the first detector raises [TypeError]. *)
Lemma check_sensitive_info_not_str prompt w :
  (forall t, prompt <> PyStr t) ->
  exists e,
    class_of e = TypeError /\
    runs_to (check_sensitive_info prompt) w (Raise e) [] ["detect_api_key"%string].
Proof.
  intro H. unfold runs_to, check_sensitive_info, checks, for_checks.
  unfold bind, call, note. simpl.
  destruct prompt; try (eexists; simpl; rewrite app_nil_r; split;
                        [|split; [reflexivity|auto]]; reflexivity).
  exfalso. eapply H. reflexivity.
Qed.

Lemma verdict_first cs t : forall k c,
  nth_error cs k = Some c ->
  check_func c t = true ->
  (forall j c', (j < k)%nat -> nth_error cs j = Some c' ->
                check_func c' t = false) ->
  verdict cs t = (true, warning_msg c).
Proof.
  induction cs as [|c0 cs IH]; intros k c Hk Hc Hlt.
  - destruct k; discriminate Hk.
  - destruct k as [|k]; simpl in *.
    + injection Hk as ->. rewrite Hc. reflexivity.
    + rewrite (Hlt 0%nat c0); [|lia|reflexivity].
      apply (IH k c); auto.
      intros j c' Hj Hn. apply (Hlt (S j) c'); [lia|exact Hn].
Qed.

Lemma verdict_none cs t :
  (forall c, In c cs -> check_func c t = false) -> verdict cs t = (false, []).
Proof.
  induction cs as [|c0 cs IH]; simpl; intro H; [reflexivity|].
  rewrite (H c0); auto.
Qed.

(** A deny always carries the warning of a detector that fired. *)
Lemma verdict_true cs t msg :
  verdict cs t = (true, msg) ->
  exists c, In c cs /\ check_func c t = true /\ msg = warning_msg c.
Proof.
  induction cs as [|c0 cs IH]; simpl; intro H; [discriminate|].
  destruct (check_func c0 t) eqn:E.
  - injection H as <-. exists c0. auto.
  - destruct (IH H) as (c & Hin & Hc & Hm). exists c. auto.
Qed.

Lemma check_sensitive_info_str t w :
  fst (check_sensitive_info (PyStr t) w) = Ok (verdict checks t).
Proof. apply (for_checks_str checks t w). Qed.

Section Paths.

Variable dev : site -> option exn.
Variable decode_utf8 : list N -> outcome str.
Variable json_loads : str -> outcome pyval.

Let main_on := main_on dev decode_utf8 json_loads.
Let main := main decode_utf8 json_loads.
Let handler_answer := handler_answer dev.
Let body_answer := body_answer dev.

Ltac run :=
  unfold runs_to, main_on, Hook.main_on, body_answer, Hook.body_answer,
    handler_answer, Hook.handler_answer, parse, try_except, bind, lift, get,
    write, ret, raise.

Ltac ends := simpl; rewrite ?app_nil_r; auto.

(** The bytes do not decode: the outer handler answers. *)
Lemma main_on_decode_error stdin e w :
  decode_utf8 stdin = Raise e ->
  runs_to (main_on stdin) w (fst (handler_answer e)) (snd (handler_answer e))
          [].
Proof.
  intro H. run. rewrite H. destruct (dev HandlerWrite); ends.
Qed.

(** [json.loads] raises [JSONDecodeError]: the inner handler answers. *)
Lemma main_on_json_error stdin input_data e w :
  decode_utf8 stdin = Ok input_data ->
  json_loads input_data = Raise e ->
  is_JSONDecodeError e = true ->
  runs_to (main_on stdin) w
          (fst (body_answer ParseErrorWrite
                            (allow_with (JSON_ERROR_PREFIX ++ str_of e))))
          (snd (body_answer ParseErrorWrite
                            (allow_with (JSON_ERROR_PREFIX ++ str_of e))))
          [].
Proof.
  intros H1 H2 H3. run. rewrite H1, H2, H3.
  destruct (dev ParseErrorWrite); [destruct (dev HandlerWrite)|]; ends.
Qed.

(** [json.loads] raises anything else: the outer handler answers. *)
Lemma main_on_loads_error stdin input_data e w :
  decode_utf8 stdin = Ok input_data ->
  json_loads input_data = Raise e ->
  is_JSONDecodeError e = false ->
  runs_to (main_on stdin) w (fst (handler_answer e)) (snd (handler_answer e))
          [].
Proof.
  intros H1 H2 H3. run. rewrite H1, H2, H3.
  destruct (dev HandlerWrite); ends.
Qed.

(** The parsed value is not a dict: [data.get] raises, the outer handler
    answers. *)
Lemma main_on_not_dict stdin input_data data w :
  decode_utf8 stdin = Ok input_data ->
  json_loads input_data = Ok data ->
  (forall d, data <> PyDict d) ->
  exists e,
    (forall w0, fst (get data (py "prompt") (PyStr []) w0) = Raise e) /\
    runs_to (main_on stdin) w (fst (handler_answer e))
            (snd (handler_answer e)) [].
Proof.
  intros H1 H2 H3. run. rewrite H1, H2.
  destruct data;
    try (eexists; split; [reflexivity|];
         destruct (dev HandlerWrite); ends).
  exfalso. eapply H3. reflexivity.
Qed.

(** No prompt, or a falsy one: allow, and no detector is called. *)
Lemma main_on_no_prompt stdin input_data d w :
  decode_utf8 stdin = Ok input_data ->
  json_loads input_data = Ok (PyDict d) ->
  truthy (prompt_of d) = false ->
  runs_to (main_on stdin) w (fst (body_answer NoPromptWrite allow))
          (snd (body_answer NoPromptWrite allow)) [].
Proof.
  intros H1 H2 H3. run. rewrite H1, H2. simpl.
  fold (prompt_of d). rewrite H3.
  destruct (dev NoPromptWrite); [destruct (dev HandlerWrite)|]; ends.
Qed.

(** A truthy prompt that is not a text: the first detector raises, the
    outer handler answers. *)
Lemma main_on_prompt_not_str stdin input_data d w :
  decode_utf8 stdin = Ok input_data ->
  json_loads input_data = Ok (PyDict d) ->
  truthy (prompt_of d) = true ->
  (forall t, prompt_of d <> PyStr t) ->
  exists e,
    (forall w0, fst (check_sensitive_info (prompt_of d) w0) = Raise e) /\
    runs_to (main_on stdin) w (fst (handler_answer e))
            (snd (handler_answer e)) ["detect_api_key"%string].
Proof.
  intros H1 H2 H3 H4. run. rewrite H1, H2. simpl.
  fold (prompt_of d). rewrite H3. simpl.
  unfold check_sensitive_info, checks, for_checks, bind, call, note. simpl.
  destruct (prompt_of d);
    try (eexists; split; [reflexivity|];
         destruct (dev HandlerWrite); ends).
  exfalso. eapply H4. reflexivity.
Qed.

(** A non-empty text: the verdict of the battery decides. *)
Lemma main_on_prompt_str stdin input_data d t w :
  decode_utf8 stdin = Ok input_data ->
  json_loads input_data = Ok (PyDict d) ->
  prompt_of d = PyStr t -> t <> [] ->
  runs_to (main_on stdin) w
          (fst (body_answer ResultWrite
                  (if fst (verdict checks t)
                   then deny (snd (verdict checks t)) else allow)))
          (snd (body_answer ResultWrite
                  (if fst (verdict checks t)
                   then deny (snd (verdict checks t)) else allow)))
          (evaluated checks t).
Proof.
  intros H1 H2 H3 H4.
  destruct (for_checks_str checks t w) as (E1 & E2 & E3).
  remember (verdict checks t) as v eqn:Ev.
  remember (evaluated checks t) as names eqn:En.
  run. rewrite H1, H2.
  remember check_sensitive_info as csi eqn:Ecsi. simpl.
  fold (prompt_of d). rewrite H3.
  destruct t as [|c t]; [congruence|].
  change (negb (truthy (PyStr (c :: t)))) with false. cbv beta iota.
  subst csi. unfold check_sensitive_info.
  destruct (for_checks checks (PyStr (c :: t)) w) as [o w'].
  cbn [fst snd] in E1, E2, E3. subst o.
  destruct v as [has msg]. cbn [fst snd].
  rewrite app_nil_r in E2.
  destruct has; cbn [fst snd stdout called];
    (destruct (dev ResultWrite); [destruct (dev HandlerWrite)|]);
    cbn [fst snd stdout called]; rewrite ?E2, ?E3, ?app_nil_r; auto.
Qed.

End Paths.

(** The same paths on an output that accepts every write. *)
Section WritablePaths.

Variable decode_utf8 : list N -> outcome str.
Variable json_loads : str -> outcome pyval.

Let main := main decode_utf8 json_loads.

Lemma main_decode_error stdin e w :
  decode_utf8 stdin = Raise e ->
  runs_to (main stdin) w (Ok tt) [allow_with (ERROR_PREFIX ++ str_of e)] [].
Proof. apply (main_on_decode_error writable). Qed.

Lemma main_json_error stdin input_data e w :
  decode_utf8 stdin = Ok input_data ->
  json_loads input_data = Raise e ->
  is_JSONDecodeError e = true ->
  runs_to (main stdin) w (Ok tt)
          [allow_with (JSON_ERROR_PREFIX ++ str_of e)] [].
Proof. apply (main_on_json_error writable). Qed.

Lemma main_loads_error stdin input_data e w :
  decode_utf8 stdin = Ok input_data ->
  json_loads input_data = Raise e ->
  is_JSONDecodeError e = false ->
  runs_to (main stdin) w (Ok tt) [allow_with (ERROR_PREFIX ++ str_of e)] [].
Proof. apply (main_on_loads_error writable). Qed.

Lemma main_not_dict stdin input_data data w :
  decode_utf8 stdin = Ok input_data ->
  json_loads input_data = Ok data ->
  (forall d, data <> PyDict d) ->
  exists e,
    (forall w0, fst (get data (py "prompt") (PyStr []) w0) = Raise e) /\
    runs_to (main stdin) w (Ok tt) [allow_with (ERROR_PREFIX ++ str_of e)] [].
Proof. apply (main_on_not_dict writable). Qed.

Lemma main_no_prompt stdin input_data d w :
  decode_utf8 stdin = Ok input_data ->
  json_loads input_data = Ok (PyDict d) ->
  truthy (prompt_of d) = false ->
  runs_to (main stdin) w (Ok tt) [allow] [].
Proof. apply (main_on_no_prompt writable). Qed.

Lemma main_prompt_not_str stdin input_data d w :
  decode_utf8 stdin = Ok input_data ->
  json_loads input_data = Ok (PyDict d) ->
  truthy (prompt_of d) = true ->
  (forall t, prompt_of d <> PyStr t) ->
  exists e,
    (forall w0, fst (check_sensitive_info (prompt_of d) w0) = Raise e) /\
    runs_to (main stdin) w (Ok tt) [allow_with (ERROR_PREFIX ++ str_of e)]
            ["detect_api_key"%string].
Proof. apply (main_on_prompt_not_str writable). Qed.

Lemma main_prompt_str stdin input_data d t w :
  decode_utf8 stdin = Ok input_data ->
  json_loads input_data = Ok (PyDict d) ->
  prompt_of d = PyStr t -> t <> [] ->
  runs_to (main stdin) w (Ok tt)
          [if fst (verdict checks t) then deny (snd (verdict checks t))
           else allow]
          (evaluated checks t).
Proof. apply (main_on_prompt_str writable). Qed.

End WritablePaths.

End HookFacts.

(** ** What the patterns ask of a text *)

Module ShapeFacts.

Import Text Regex Detect Py Hook Shapes.
Import RegexFacts DetectFacts HookFacts.

Section Patterns.

Variable f : flags.

(** A match stays a match when text is put around it. *)
Lemma contains_extend r t a b :
  contains f r t -> contains f r (a ++ t ++ b).
Proof.
  intros (x & m & y & -> & H). exists (a ++ x), m, (y ++ b).
  split; [|exact H]. rewrite <- !app_assoc. reflexivity.
Qed.

Lemma search_extend r t a b :
  search f r t = true -> search f r (a ++ t ++ b) = true.
Proof.
  rewrite !search_correct. apply contains_extend.
Qed.

Lemma any_search_extend ps t a b :
  any_search f ps t = true -> any_search f ps (a ++ t ++ b) = true.
Proof.
  rewrite !any_search_correct. unfold group_signature.
  rewrite !Exists_exists. intros (p & Hin & Hc).
  exists p. split; [exact Hin | apply contains_extend; exact Hc].
Qed.

(** No match is shorter than [min_len]. *)
Lemma min_len_le r m : matches f r m -> (min_len r <= List.length m)%nat.
Proof.
  induction 1; simpl; rewrite ?length_app; try lia.
  destruct lo as [|lo]; simpl in *; lia.
Qed.

Lemma contains_min_len r t :
  contains f r t -> (min_len r <= List.length t)%nat.
Proof.
  intros (a & m & b & -> & H). apply min_len_le in H.
  rewrite !length_app. lia.
Qed.

Lemma any_search_short ps n t :
  forallb (fun r => Nat.leb n (min_len r)) ps = true ->
  (List.length t < n)%nat -> any_search f ps t = false.
Proof.
  intros Hps Hlen. destruct (any_search f ps t) eqn:E; [|reflexivity].
  apply any_search_correct in E. unfold group_signature in E.
  apply Exists_exists in E as (p & Hin & Hc).
  rewrite forallb_forall in Hps. specialize (Hps p Hin).
  apply Nat.leb_le in Hps. apply contains_min_len in Hc. lia.
Qed.

Lemma only_chars_sound p items c :
  only_chars p items = true -> in_set false items c = true -> p c = true.
Proof.
  unfold only_chars, in_set. simpl. intros Hall Hin.
  apply existsb_exists in Hin as (i & Hi & Hc).
  rewrite forallb_forall in Hall. specialize (Hall i Hi).
  destruct i; try discriminate. simpl in Hc.
  apply N.eqb_eq in Hc. subst. exact Hall.
Qed.

(** A match of a pattern that requires [p] holds a character of [p]. *)
Lemma requires_sound p r m :
  matches f r m -> requires p r = true ->
  exists c, In c m /\ p c = true.
Proof.
  induction 1; simpl; intro R; try discriminate.
  - apply andb_true_iff in R as [Hn Ho].
    destruct neg; [discriminate|].
    exists c. split; [left; reflexivity|].
    eapply only_chars_sound; eauto.
  - apply orb_true_iff in R as [R | R].
    + destruct (IHmatches1 R) as (c & Hc & Hp).
      exists c. split; [apply in_or_app; left; exact Hc | exact Hp].
    + destruct (IHmatches2 R) as (c & Hc & Hp).
      exists c. split; [apply in_or_app; right; exact Hc | exact Hp].
  - apply andb_true_iff in R as [R _]. auto.
  - apply andb_true_iff in R as [_ R]. auto.
  - apply andb_true_iff in R as [_ R].
    destruct (IHmatches1 R) as (c & Hc & Hp).
    exists c. split; [apply in_or_app; left; exact Hc | exact Hp].
Qed.

Lemma any_search_lacking p ps t :
  forallb (requires p) ps = true ->
  (forall c, In c t -> p c = false) -> any_search f ps t = false.
Proof.
  intros Hps Hno. destruct (any_search f ps t) eqn:E; [|reflexivity].
  apply any_search_correct in E. unfold group_signature in E.
  apply Exists_exists in E as (r & Hin & (a & m & b & -> & Hm)).
  rewrite forallb_forall in Hps. specialize (Hps r Hin).
  destruct (requires_sound p Hm Hps) as (c & Hc & Hp).
  rewrite Hno in Hp; [discriminate|].
  apply in_or_app; right. apply in_or_app; left. exact Hc.
Qed.

(** The characters of a run are taken one by one by its class. *)
Lemma class_run items s :
  forallb (in_set false items) s = true ->
  Forall (fun c => matches f (Set_ false items) [c]) s.
Proof.
  intro H. apply Forall_forall. intros c Hc.
  rewrite forallb_forall in H. apply MSet. apply H. exact Hc.
Qed.

Lemma forallb_firstn (p : N -> bool) n : forall s,
  forallb p s = true -> forallb p (firstn n s) = true.
Proof.
  induction n as [|n IH]; intros [|c s]; simpl; auto.
  intro H. apply andb_true_iff in H as [H1 H2].
  rewrite H1, IH; auto.
Qed.

(** [C{n,}] takes a whole run of [n] or more. *)
Lemma atleast_run items n s :
  run_of items n s = true ->
  matches f (atleast n (Set_ false items)) s.
Proof.
  unfold run_of. intro H. apply andb_true_iff in H as [Hc Hn].
  apply Nat.leb_le in Hn.
  apply rep_chars; auto using class_run.
Qed.

(** [C{n}] takes the first [n] characters of a run of [n] or more. *)
Lemma exactly_run items n s :
  run_of items n s = true ->
  matches f (exactly n (Set_ false items)) (firstn n s).
Proof.
  unfold run_of. intro H. apply andb_true_iff in H as [Hc Hn].
  apply Nat.leb_le in Hn.
  assert (Hl : List.length (firstn n s) = n)
    by (rewrite length_firstn; lia).
  apply rep_chars; auto using class_run, forallb_firstn.
  - lia.
  - simpl. rewrite Hl. apply Nat.leb_refl.
Qed.

Lemma api_label_takes s :
  casing_of "api" s -> matches f (re_seq [cls "Aa"; cls "Pp"; cls "Ii"]) s.
Proof.
  intro H. solve_label (@cons regex (cls "Aa") [cls "Pp"; cls "Ii"]) H.
Qed.

Lemma token_label_takes s :
  casing_of "token" s ->
  matches f (re_seq [cls "Tt"; cls "Oo"; cls "Kk"; cls "Ee"; cls "Nn"]) s.
Proof.
  intro H.
  solve_label (@cons regex (cls "Tt") [cls "Oo"; cls "Kk"; cls "Ee"; cls "Nn"])
              H.
Qed.

Lemma api_key_label_takes lab :
  api_key_label_shape lab -> matches f (re_seq api_key_label) lab.
Proof.
  intros (api & sep & key & -> & Ha & Hs & Hk).
  change api_key_label
    with ([cls "Aa"; cls "Pp"; cls "Ii"]
          ++ [opt (cls "_-")] ++ [cls "Kk"; cls "Ee"; cls "Yy"]).
  apply seq_app; [apply api_label_takes; exact Ha|].
  apply seq_cons; [apply separator_opt; exact Hs|].
  apply key_label_takes; exact Hk.
Qed.

(** The email pattern takes every address of [email_shape]. *)
Lemma email_shape_takes s :
  email_shape s -> matches f email_pattern s.
Proof.
  intros (local & domain & tld & -> & Hl & Hd & Ht).
  unfold email_pattern.
  apply seq_cons; [apply (@atleast_run EMAIL_LOCAL 1 local Hl)|].
  apply seq_cons; [apply lit_matches|].
  apply seq_cons; [apply (@atleast_run EMAIL_DOMAIN 1 domain Hd)|].
  apply seq_cons; [apply lit_matches|].
  rewrite <- (app_nil_r tld).
  apply seq_cons; [apply (@atleast_run LETTERS 2 tld Ht) | apply seq_nil].
Qed.

End Patterns.

(** The password pattern of the fifth detector takes every assignment of
    [password_shape]. *)
Lemma password_shape_takes s :
  password_shape s -> matches NOFLAGS password_pattern s.
Proof.
  intros (lab & ws1 & op & ws2 & q & val & -> & Hlab & Hval).
  unfold password_assignment in Hval.
  apply andb_true_iff in Hval as [Hval Hlen].
  apply andb_true_iff in Hval as [Hok Hchars].
  apply Nat.leb_le in Hlen.
  unfold password_pattern.
  apply seq_app; [apply password_label_takes; exact Hlab|].
  apply value_tail; auto using value_chars_run.
Qed.

(** Every detector of the battery keeps firing when text is put around
    the text it fired on. *)
Lemma check_func_extend c t a b :
  In c checks -> check_func c t = true ->
  check_func c (a ++ t ++ b) = true.
Proof.
  intros Hin H.
  repeat (destruct Hin as [<- | Hin];
          [try (apply any_search_extend; exact H)|]);
    [|destruct Hin].
  simpl in *. unfold detect_email_password in *.
  destruct (search NOFLAGS email_pattern t) eqn:E1; [|discriminate H].
  destruct (search NOFLAGS password_pattern t) eqn:E2; [|discriminate H].
  rewrite (@search_extend NOFLAGS email_pattern t a b E1),
    (@search_extend NOFLAGS password_pattern t a b E2).
  reflexivity.
Qed.

(** The detectors the loop calls when the one at position [k] is the
    first to fire, and when none fires. *)
Lemma evaluated_first cs t : forall k c,
  nth_error cs k = Some c ->
  check_func c t = true ->
  (forall j c', (j < k)%nat -> nth_error cs j = Some c' ->
                check_func c' t = false) ->
  evaluated cs t = map check_name (firstn (S k) cs).
Proof.
  induction cs as [|c0 cs IH]; intros k c Hk Hc Hlt.
  - destruct k; discriminate Hk.
  - destruct k as [|k].
    + simpl in Hk. injection Hk as ->. simpl. rewrite Hc. reflexivity.
    + change (evaluated (c0 :: cs) t)
        with (check_name c0 ::
              (if check_func c0 t then [] else evaluated cs t)).
      rewrite (Hlt 0%nat c0); [|lia|reflexivity].
      change (firstn (S (S k)) (c0 :: cs)) with (c0 :: firstn (S k) cs).
      simpl map. f_equal. apply (IH k c); auto.
      intros j c' Hj Hn. apply (Hlt (S j) c'); [lia|exact Hn].
Qed.

(** The fifth detector never fires without the second. *)
Lemma email_implies_password t :
  detect_email_password t = true -> detect_password t = true.
Proof.
  unfold detect_email_password. intro H.
  destruct (search NOFLAGS email_pattern t); simpl in H; [|discriminate].
  destruct (search NOFLAGS password_pattern t) eqn:E; [|discriminate].
  unfold detect_password, password_patterns. cbn [any_search].
  fold password_pattern. rewrite E. reflexivity.
Qed.

Lemma verdict_false cs t msg :
  verdict cs t = (false, msg) ->
  forall c, In c cs -> check_func c t = false.
Proof.
  induction cs as [|c0 cs IH]; simpl; intros H c Hin; [destruct Hin|].
  destruct (check_func c0 t) eqn:E; [discriminate H|].
  destruct Hin as [<- | Hin]; auto.
Qed.

Lemma evaluated_none cs t :
  (forall c, In c cs -> check_func c t = false) ->
  evaluated cs t = map check_name cs.
Proof.
  induction cs as [|c0 cs IH]; simpl; intro H; [reflexivity|].
  rewrite (H c0); auto. f_equal. auto.
Qed.

End ShapeFacts.

(** ** The detectors fire exactly on their signatures *)

Module SignatureFacts.

Import Text Regex Detect Py Hook Shapes Signatures.
Import RegexFacts DetectFacts HookFacts ShapeFacts.
Local Open Scope N_scope.

Section Inversion.

Variable f : flags.





















Lemma contains_of_holds p (shape : str -> Prop) t :
  (forall m, shape m -> matches f p m) ->
  holds shape t -> contains f p t.
Proof.
  intros Hp (m & Hs & (a & b & ->)). exists a, m, b. auto.
Qed.

(** *** The labels *)
















(** *** Runs of a class *)









End Inversion.

(** *** Each detector against its signature *)













End SignatureFacts.

(* ================================================================== *)
(** * The claims of the specification *)

Import Text Regex Detect Py Hook Shapes Signatures.
Import RegexFacts DetectFacts HookFacts ShapeFacts SignatureFacts.




(** C2.  The password pattern of the email+password detector is the
    first pattern of the password detector, so whenever
    [detect_email_password] fires [detect_password] fires too; hence
    [check_sensitive_info] never returns the email+password warning: under
    first-match-wins the fifth warning is unreachable. *)
Theorem email_password_warning_unreachable :
  In password_pattern password_patterns
  /\ (forall t, detect_email_password t = true -> detect_password t = true)
  /\ (forall prompt w r,
         fst (check_sensitive_info prompt w) = Ok r ->
         snd r <> MSG_EMAIL_PASSWORD).
Proof.
  assert (Hsub : forall t, detect_email_password t = true ->
                           detect_password t = true).
  { intros t H. unfold detect_email_password in H.
    destruct (search NOFLAGS email_pattern t); simpl in H; [|discriminate].
    destruct (search NOFLAGS password_pattern t) eqn:E; [|discriminate].
    unfold detect_password, password_patterns. cbn [any_search].
    fold password_pattern. rewrite E. reflexivity. }
  split; [left; reflexivity|]. split; [exact Hsub|].
  intros prompt w r H.
  destruct prompt; try (simpl in H; discriminate H).
  rewrite check_sensitive_info_str in H. injection H as <-.
  unfold verdict, checks, check_func, warning_msg.
  destruct (detect_api_key s); [simpl; discriminate|].
  destruct (detect_password s) eqn:Ep; [simpl; discriminate|].
  destruct (detect_secret_key s); [simpl; discriminate|].
  destruct (detect_credentials s); [simpl; discriminate|].
  destruct (detect_email_password s) eqn:Ee; [|simpl; discriminate].
  rewrite (Hsub s Ee) in Ep. discriminate Ep.
Qed.

Lemma email_password_warning_unreachable_witness :
  detect_email_password (py "my email is a@b.com and password: abcdef") = true
  /\ detect_password (py "my email is a@b.com and password: abcdef") = true.
Proof.
  assert (H : detect_email_password
                (py "my email is a@b.com and password: abcdef") = true)
    by (vm_compute; reflexivity).
  split; [exact H|].
  exact (proj1 (proj2 email_password_warning_unreachable) _ H).
Defined.

(** C6.  The password detector on the upper-case label: the third
    pattern is [[Pp]ass], so of the casings of "pass" only "pass" and
    "Pass" are labels; "PASS: abcdef" goes undetected while the same
    assignment under "pass", "Pass", "PWD" or "PASSWORD" is detected. *)
Theorem detect_password_misses_upper_pass :
  detect_password (py "PASS: abcdef") = false
  /\ detect_password (py "pASS: abcdef") = false
  /\ detect_password (py "pass: abcdef") = true
  /\ detect_password (py "Pass: abcdef") = true
  /\ detect_password (py "PWD: abcdef") = true
  /\ detect_password (py "PASSWORD: abcdef") = true
  /\ forall w,
       fst (check_sensitive_info (PyStr (py "PASS: abcdef")) w)
       = Ok (false, []).
Proof.
  repeat (split; [vm_compute; reflexivity|]).
  intro w. rewrite check_sensitive_info_str. vm_compute. reflexivity.
Qed.

(** C7, as the claim states it: the three spellings "secret key",
    "secret_key" and "secret-key".  The space-separated one is not
    detected. *)
Lemma secret_key_with_space_not_detected :
  ~ (forall pre lab sep key ws1 op ws2 q val post,
        casing_of "secret" lab ->
        In sep [py " "; py "_"; py "-"] ->
        casing_of "key" key ->
        secret_assignment 16 ws1 op ws2 q val = true ->
        detect_secret_key
          (pre ++ (lab ++ sep ++ key ++ ws1 ++ [op] ++ ws2 ++ q ++ val)
               ++ post) = true).
Proof.
  intro H.
  specialize (H [] (py "secret") (py " ") (py "key") [] 58%N (py " ") []
                (py "abcdefghijklmnop") []
                eq_refl (or_introl eq_refl) eq_refl eq_refl).
  assert (E : detect_secret_key (py "secret key: abcdefghijklmnop") = false)
    by (vm_compute; reflexivity).
  assert (T : [] ++ (py "secret" ++ py " " ++ py "key" ++ [] ++ [58%N]
                     ++ py " " ++ [] ++ py "abcdefghijklmnop") ++ []
              = py "secret key: abcdefghijklmnop")
    by (vm_compute; reflexivity).
  rewrite T, E in H. discriminate H.
Qed.

(** C7, amended.  The secret/token detector takes the label "secret"
    joined to "key" by nothing, [_] or [-] (every letter in either case),
    followed by the assignment and a value of at least 16 characters of
    [A-Za-z0-9_-]: every text holding such a shape is detected. *)
Theorem detect_secret_key_label
        (pre lab sep key ws1 ws2 q val post : str) (op : N) :
  casing_of "secret" lab ->
  opt_separator sep = true ->
  casing_of "key" key ->
  secret_assignment 16 ws1 op ws2 q val = true ->
  detect_secret_key
    (pre ++ (lab ++ sep ++ key ++ ws1 ++ [op] ++ ws2 ++ q ++ val) ++ post)
  = true.
Proof.
  intros Hlab Hsep Hkey Hval.
  unfold secret_assignment in Hval.
  apply andb_true_iff in Hval as [Hval Hlen].
  apply andb_true_iff in Hval as [Hok Hchars].
  apply Nat.leb_le in Hlen.
  unfold detect_secret_key.
  apply any_search_intro
    with (p := re_seq (secret_label
                       ++ [opt (cls "_-"); cls "Kk"; cls "Ee"; cls "Yy"]
                       ++ secret_value 16)).
  - right; left; reflexivity.
  - apply seq_app; [apply secret_label_takes; exact Hlab|].
    rewrite (app_assoc sep key).
    apply (@seq_app NOFLAGS [opt (cls "_-"); cls "Kk"; cls "Ee"; cls "Yy"]
                    (secret_value 16) (sep ++ key));
      [apply seq_cons;
       [apply separator_opt; exact Hsep | apply key_label_takes; exact Hkey]|].
    apply value_tail; auto using key_chars_run.
Qed.

Lemma detect_secret_key_label_witness :
  detect_secret_key (py "export SECRET_Key = 'abcdefghijklmnop1234' # prod")
  = true.
Proof.
  apply (@detect_secret_key_label
           (py "export ") (py "SECRET") (py "_") (py "Key") (py " ")
           (py " ") (py "'") (py "abcdefghijklmnop1234") (py "' # prod")
           61%N);
    reflexivity.
Defined.

(** C8, as the claim states it: any of "username", "account", "登入"
    followed later by any of "password", "密碼".  A pair that mixes the
    Latin and the Chinese labels is not detected. *)
Lemma mixed_credential_labels_not_detected :
  ~ (forall pre lab1 ws1 op1 mid lab2 ws2 op2 post,
        any_two_labels lab1 lab2 ->
        all_space ws1 = true -> is_assign op1 = true ->
        all_space ws2 = true -> is_assign op2 = true ->
        detect_credentials
          (pre ++ (lab1 ++ (ws1 ++ [op1] ++ mid) ++ lab2 ++ (ws2 ++ [op2]))
               ++ post) = true).
Proof.
  intro H.
  specialize (H [] (py "username") [] 58%N (py " bob" ++ [LF]) (py "密碼")
                [] 58%N (py " hunter2")
                (conj (or_introl eq_refl) (or_intror eq_refl))
                eq_refl eq_refl eq_refl eq_refl).
  assert (E : detect_credentials
                (py "username: bob" ++ [LF] ++ py "密碼: hunter2") = false)
    by (vm_compute; reflexivity).
  assert (T : [] ++ (py "username" ++ ([] ++ [58%N] ++ py " bob" ++ [LF])
                     ++ py "密碼" ++ ([] ++ [58%N])) ++ py " hunter2"
              = py "username: bob" ++ [LF] ++ py "密碼: hunter2")
    by (vm_compute; reflexivity).
  rewrite T, E in H. discriminate H.
Qed.

(** C8, amended.  The credential-pair detector matches across line
    breaks: every text holding "username" or "account" (any casing) and
    later "password" (any casing), or "登入" and later "密碼", each
    followed by optional whitespace and an assignment operator, is
    detected, whatever stands in between, line feeds included. *)
Theorem detect_credentials_spans_lines
        (pre lab1 ws1 mid lab2 ws2 post : str) (op1 op2 : N) :
  paired_labels lab1 lab2 ->
  all_space ws1 = true -> is_assign op1 = true ->
  all_space ws2 = true -> is_assign op2 = true ->
  detect_credentials
    (pre ++ (lab1 ++ (ws1 ++ [op1] ++ mid) ++ lab2 ++ (ws2 ++ [op2])) ++ post)
  = true.
Proof.
  intros Hpair Hw1 Ho1 Hw2 Ho2. unfold detect_credentials.
  destruct Hpair as [[H1 H2] | [[H1 H2] | [-> ->]]].
  - apply any_search_intro
      with (p := pair_pattern username_label password_label);
      [left; reflexivity|].
    apply pair_pattern_takes;
      auto using username_label_takes, password_label_takes.
  - apply any_search_intro
      with (p := pair_pattern account_label password_label);
      [right; left; reflexivity|].
    apply pair_pattern_takes;
      auto using account_label_takes, password_label_takes.
  - apply any_search_intro
      with (p := pair_pattern [lit "登入"] [lit "密碼"]);
      [right; right; left; reflexivity|].
    apply pair_pattern_takes; auto using lit_label_takes.
Qed.

Lemma detect_credentials_spans_lines_witness :
  detect_credentials
    (py "login with UserName = bob" ++ [LF; LF] ++ py "and Password : x")
  = true.
Proof.
  apply (@detect_credentials_spans_lines
           (py "login with ") (py "UserName") (py " ")
           (py " bob" ++ [LF; LF] ++ py "and ") (py "Password") (py " ")
           (py " x") 61%N 58%N);
    try reflexivity.
  left. split; reflexivity.
Defined.

(** Without [re.DOTALL] the same patterns stop at a line feed. *)
Lemma credentials_need_dotall :
  any_search NOFLAGS credentials_patterns
             (py "username: bob" ++ [LF] ++ py "password: hunter2") = false
  /\ any_search DOTALL credentials_patterns
                (py "username: bob" ++ [LF] ++ py "password: hunter2") = true.
Proof. split; vm_compute; reflexivity. Qed.

(** ** The adapter *)








(** C4.  When the input cannot be parsed as JSON (its bytes do not decode,
    or [json.loads] raises), [main] writes one response with
    [continue = true] and a non-empty [user_message] that ends with the
    text of the error, and calls no detector; after a [JSONDecodeError] the
    message is the JSON-error prefix followed by that text.  The response
    is never a deny. *)
Theorem main_unparsable_input
        (decode_utf8 : list N -> outcome str)
        (json_loads : str -> outcome pyval) (stdin : list N) (e : exn)
        (w : world) :
  unparsable decode_utf8 json_loads stdin e ->
  exists message,
    runs_to (main decode_utf8 json_loads stdin) w (Ok tt)
            [allow_with message] []
    /\ lookup (allow_with message) CONTINUE = Some (PyBool true)
    /\ lookup (allow_with message) USER_MESSAGE = Some (PyStr message)
    /\ message <> []
    /\ (exists prefix, message = prefix ++ str_of e)
    /\ ((exists input_data,
            decode_utf8 stdin = Ok input_data
            /\ json_loads input_data = Raise e
            /\ is_JSONDecodeError e = true) ->
        message = JSON_ERROR_PREFIX ++ str_of e).
Proof.
  intros [Hd | (input_data & Hd & Hj)].
  - exists (ERROR_PREFIX ++ str_of e).
    split; [apply main_decode_error; exact Hd|].
    repeat split; try discriminate; eauto.
    intros (s & Hs & _). congruence.
  - destruct (is_JSONDecodeError e) eqn:He.
    + exists (JSON_ERROR_PREFIX ++ str_of e).
      split; [eapply main_json_error; eauto|].
      repeat split; try discriminate; eauto.
    + exists (ERROR_PREFIX ++ str_of e).
      split; [eapply main_loads_error; eauto|].
      repeat split; try discriminate; eauto.
      intros (s & Hs & Hr & Hc). congruence.
Qed.

Lemma main_unparsable_input_witness :
  exists message,
    runs_to (main (fun bytes => Ok bytes)
                  (fun _ => Raise {| class_of := JSONDecodeError;
                                     str_of := py "Expecting value" |})
                  (py "{prompt"))
            empty_world (Ok tt) [allow_with message] []
    /\ message = JSON_ERROR_PREFIX ++ py "Expecting value".
Proof.
  destruct (@main_unparsable_input
              (fun bytes => Ok bytes)
              (fun _ => Raise {| class_of := JSONDecodeError;
                                 str_of := py "Expecting value" |})
              (py "{prompt")
              {| class_of := JSONDecodeError; str_of := py "Expecting value" |}
              empty_world)
    as (message & Hrun & _ & _ & _ & _ & Hjson).
  - right. exists (py "{prompt"). split; reflexivity.
  - exists message. split; [exact Hrun|].
    apply Hjson. exists (py "{prompt"). repeat split; reflexivity.
Defined.

(** C5, as the claim states it: every well-formed JSON input without a
    [prompt] field.  A JSON value that is not an object (here the array
    [[]]) has no such field, yet [data.get] raises on it and the response
    carries a [user_message]. *)
Lemma non_object_json_gets_message :
  ~ (forall (decode_utf8 : list N -> outcome str)
            (json_loads : str -> outcome pyval) stdin input_data data w,
        decode_utf8 stdin = Ok input_data ->
        json_loads input_data = Ok data ->
        field data (py "prompt") = None
        \/ field data (py "prompt") = Some (PyStr []) ->
        runs_to (main decode_utf8 json_loads stdin) w (Ok tt)
                [[(CONTINUE, PyBool true)]] []).
Proof.
  intro H.
  specialize (H (fun bytes => Ok bytes) (fun _ => Ok (PyList []))
                (py "[]") (py "[]") (PyList []) empty_world
                eq_refl eq_refl (or_introl eq_refl)).
  destruct H as (_ & H & _). vm_compute in H. discriminate H.
Qed.

(** C5, amended.  When the input parses to a JSON object that has no
    [prompt] field, or whose prompt is the empty text, [main] writes
    exactly [{continue: true}], with no [user_message], and calls no
    detector. *)
Theorem main_empty_prompt
        (decode_utf8 : list N -> outcome str)
        (json_loads : str -> outcome pyval) (stdin : list N)
        (input_data : str) (d : pydict) (w : world) :
  decode_utf8 stdin = Ok input_data ->
  json_loads input_data = Ok (PyDict d) ->
  lookup d (py "prompt") = None \/ lookup d (py "prompt") = Some (PyStr []) ->
  runs_to (main decode_utf8 json_loads stdin) w (Ok tt)
          [[(CONTINUE, PyBool true)]] []
  /\ lookup [(CONTINUE, PyBool true)] USER_MESSAGE = None.
Proof.
  intros Hd Hj Hp. split; [|reflexivity].
  apply (@main_no_prompt decode_utf8 json_loads stdin input_data d w Hd Hj).
  unfold prompt_of. destruct Hp as [-> | ->]; reflexivity.
Qed.

Lemma main_empty_prompt_witness :
  runs_to (main (fun bytes => Ok bytes)
                (fun _ => Ok (PyDict [(py "session", PyStr (py "abc"))]))
                (py "{session: abc}"))
          empty_world (Ok tt) [[(CONTINUE, PyBool true)]] []
  /\ runs_to (main (fun bytes => Ok bytes)
                   (fun _ => Ok (PyDict [(py "prompt", PyStr [])]))
                   (py "{prompt: }"))
             empty_world (Ok tt) [[(CONTINUE, PyBool true)]] [].
Proof.
  split.
  - apply (@main_empty_prompt
             (fun bytes => Ok bytes)
             (fun _ => Ok (PyDict [(py "session", PyStr (py "abc"))]))
             (py "{session: abc}") (py "{session: abc}")
             [(py "session", PyStr (py "abc"))] empty_world
             eq_refl eq_refl (or_introl eq_refl)).
  - apply (@main_empty_prompt
             (fun bytes => Ok bytes)
             (fun _ => Ok (PyDict [(py "prompt", PyStr [])]))
             (py "{prompt: }") (py "{prompt: }")
             [(py "prompt", PyStr [])] empty_world
             eq_refl eq_refl (or_intror eq_refl)).
Defined.

(** C9.  On the text "username: bob password: hunter2" the API-key
    detector does not fire, the password detector and the credential-pair
    detector both do, and because the password detector comes first
    [check_sensitive_info] returns [True] with the password warning, having
    called only the first two detectors; [main], given that text as the
    prompt, writes [continue = false] with the password warning. *)
Theorem username_password_example :
  detect_api_key (py "username: bob password: hunter2") = false
  /\ detect_password (py "username: bob password: hunter2") = true
  /\ detect_credentials (py "username: bob password: hunter2") = true
  /\ MSG_PASSWORD <> MSG_CREDENTIALS
  /\ (forall w,
         runs_to (check_sensitive_info
                    (PyStr (py "username: bob password: hunter2")))
                 w (Ok (true, MSG_PASSWORD)) []
                 ["detect_api_key"; "detect_password"]%string)
  /\ (forall decode_utf8 json_loads stdin input_data d w,
         decode_utf8 stdin = Ok input_data ->
         json_loads input_data = Ok (PyDict d) ->
         lookup d (py "prompt")
         = Some (PyStr (py "username: bob password: hunter2")) ->
         runs_to (main decode_utf8 json_loads stdin) w (Ok tt)
                 [[(CONTINUE, PyBool false);
                   (USER_MESSAGE, PyStr MSG_PASSWORD)]]
                 ["detect_api_key"; "detect_password"]%string).
Proof.
  assert (Hv : verdict checks (py "username: bob password: hunter2")
               = (true, MSG_PASSWORD)) by (vm_compute; reflexivity).
  assert (He : evaluated checks (py "username: bob password: hunter2")
               = ["detect_api_key"; "detect_password"]%string)
    by (vm_compute; reflexivity).
  repeat (split; [vm_compute; reflexivity|]).
  split; [discriminate|].
  split.
  - intro w. rewrite <- Hv, <- He. apply for_checks_str.
  - intros decode_utf8 json_loads stdin input_data d w Hd Hj Hp.
    pose proof (@main_prompt_str decode_utf8 json_loads stdin input_data d
                  (py "username: bob password: hunter2") w Hd Hj) as H.
    rewrite Hv, He in H. apply H.
    + unfold prompt_of. rewrite Hp. reflexivity.
    + vm_compute. discriminate.
Qed.

Lemma username_password_example_witness :
  runs_to (main (fun bytes => Ok bytes)
                (fun _ => Ok (PyDict
                   [(py "prompt",
                     PyStr (py "username: bob password: hunter2"))]))
                (py "{prompt: username: bob password: hunter2}"))
          empty_world (Ok tt)
          [[(CONTINUE, PyBool false); (USER_MESSAGE, PyStr MSG_PASSWORD)]]
          ["detect_api_key"; "detect_password"]%string.
Proof.
  apply (proj2 (proj2 (proj2 (proj2 (proj2 username_password_example))))
           (fun bytes => Ok bytes)
           (fun _ => Ok (PyDict
              [(py "prompt", PyStr (py "username: bob password: hunter2"))]))
           (py "{prompt: username: bob password: hunter2}")
           (py "{prompt: username: bob password: hunter2}")
           [(py "prompt", PyStr (py "username: bob password: hunter2"))]
           empty_world eq_refl eq_refl eq_refl).
Defined.

(** C10.  [check_sensitive_info] is deterministic and keeps no state:
    its result on a prompt is the same from any two worlds, and on a text
    two evaluations in a row return the same pair, neither raising. *)
Theorem check_sensitive_info_deterministic (t : str) (w1 w2 : world) :
  (forall prompt,
      fst (check_sensitive_info prompt w1)
      = fst (check_sensitive_info prompt w2))
  /\ exists r,
       fst (Py.bind (check_sensitive_info (PyStr t))
              (fun r1 => Py.bind (check_sensitive_info (PyStr t))
                 (fun r2 => ret (r1, r2))) w1)
       = Ok (r, r)
       /\ fst (check_sensitive_info (PyStr t) w2) = Ok r.
Proof.
  split.
  - intro prompt.
    destruct prompt; try reflexivity.
    rewrite !check_sensitive_info_str. reflexivity.
  - exists (verdict checks t). split; [|apply check_sensitive_info_str].
    unfold Py.bind.
    pose proof (check_sensitive_info_str t w1) as H1.
    destruct (check_sensitive_info (PyStr t) w1) as [o1 w1'].
    simpl in H1. subst o1.
    pose proof (check_sensitive_info_str t w1') as H2.
    destruct (check_sensitive_info (PyStr t) w1') as [o2 w2'].
    simpl in H2. subst o2. reflexivity.
Qed.

(* ================================================================== *)
(** * Further properties of the detectors and of the adapter *)

Import Shapes ShapeFacts.

(** ** The API-key detector *)

(** X1.  The labelled key assignment: every text that holds "api" and
    "key" in any casing, joined by nothing, [_] or [-], then optional
    whitespace, [:] or [=], optional whitespace, an optional quote and 20
    or more characters of [A-Za-z0-9_-], is taken by [detect_api_key]. *)
Theorem detect_api_key_assignment
        (pre lab ws1 ws2 q val post : str) (op : N) :
  api_key_label_shape lab ->
  secret_assignment 20 ws1 op ws2 q val = true ->
  detect_api_key (pre ++ (lab ++ ws1 ++ [op] ++ ws2 ++ q ++ val) ++ post)
  = true.
Proof.
  intros Hlab Hval. unfold secret_assignment in Hval.
  apply andb_true_iff in Hval as [Hval Hlen].
  apply andb_true_iff in Hval as [Hok Hchars].
  apply Nat.leb_le in Hlen.
  unfold detect_api_key.
  apply any_search_intro
    with (p := re_seq (api_key_label ++
                       [star ws; assign; star ws; opt quote;
                        group (atleast 20 key_chars); opt quote]));
    [left; reflexivity|].
  apply seq_app; [apply api_key_label_takes; exact Hlab|].
  apply value_tail; auto using key_chars_run.
Qed.

Lemma detect_api_key_assignment_witness :
  detect_api_key (py "set Api-KEY= 'abcdefghijklmnopqrst1234' now") = true.
Proof.
  apply (@detect_api_key_assignment
           (py "set ") (py "Api-KEY") [] (py " ") (py "'")
           (py "abcdefghijklmnopqrst1234") (py "' now") 61%N);
    [|reflexivity].
  exists (py "Api"), (py "-"), (py "KEY"). repeat split; reflexivity.
Defined.

(** X2.  The label with no operator: the same label followed by one or
    more whitespace characters and 20 or more characters of
    [A-Za-z0-9_-] is taken by [detect_api_key] too. *)
Theorem detect_api_key_spaced (pre lab gap val post : str) :
  api_key_label_shape lab ->
  gap <> [] -> all_space gap = true ->
  run_of [rng "A" "Z"; rng "a" "z"; rng "0" "9"; chr "_"; chr "-"] 20 val
  = true ->
  detect_api_key (pre ++ (lab ++ gap ++ val) ++ post) = true.
Proof.
  intros Hlab Hne Hgap Hval. unfold detect_api_key.
  apply any_search_intro
    with (p := re_seq (api_key_label ++
                       [plus ws; group (atleast 20 key_chars)]));
    [right; left; reflexivity|].
  apply seq_app; [apply api_key_label_takes; exact Hlab|].
  apply seq_cons.
  - apply rep_chars; auto using ws_chars.
    destruct gap; [congruence | simpl; lia].
  - rewrite <- (app_nil_r val).
    apply seq_cons; [apply (@atleast_run NOFLAGS _ _ _ Hval) | apply seq_nil].
Qed.

Lemma detect_api_key_spaced_witness :
  detect_api_key (py "APIKEY  abcdefghijklmnopqrst1234") = true.
Proof.
  apply (@detect_api_key_spaced
           [] (py "APIKEY") (py "  ") (py "abcdefghijklmnopqrst1234") []);
    try reflexivity; [|discriminate].
  exists (py "API"), [], (py "KEY"). repeat split; reflexivity.
Defined.

(** X3.  The vendor tokens: every text that holds [sk-] followed by 32
    or more alphanumerics, [AIza] followed by 35 or more characters of
    [0-9A-Za-z_-], or [AKIA] followed by 16 or more upper-case letters or
    digits, is taken by [detect_api_key].  The counts 35 and 16 are lower
    bounds in effect: nothing in the patterns ends the token. *)
Theorem detect_api_key_vendor_token (pre tok post : str) :
  vendor_token tok ->
  detect_api_key (pre ++ tok ++ post) = true.
Proof.
  unfold detect_api_key.
  intros [(run & -> & H) | [(run & -> & H) | (run & -> & H)]].
  - apply any_search_intro
      with (p := re_seq [lit "sk-"; atleast 32 (Set_ false ALNUM)]);
      [right; right; left; reflexivity|].
    apply seq_cons; [apply lit_matches|].
    rewrite <- (app_nil_r run).
    apply seq_cons; [apply (@atleast_run NOFLAGS _ _ _ H) | apply seq_nil].
  - rewrite <- (firstn_skipn 35 run), <- !app_assoc.
    rewrite (app_assoc (py "AIza")).
    apply any_search_intro
      with (p := re_seq [lit "AIza"; exactly 35 (Set_ false GOOGLE)]);
      [do 3 right; left; reflexivity|].
    apply seq_cons; [apply lit_matches|].
    rewrite <- (app_nil_r (firstn 35 run)).
    apply seq_cons; [apply (@exactly_run NOFLAGS _ _ _ H) | apply seq_nil].
  - rewrite <- (firstn_skipn 16 run), <- !app_assoc.
    rewrite (app_assoc (py "AKIA")).
    apply any_search_intro
      with (p := re_seq [lit "AKIA"; exactly 16 (Set_ false AWS)]);
      [do 4 right; left; reflexivity|].
    apply seq_cons; [apply lit_matches|].
    rewrite <- (app_nil_r (firstn 16 run)).
    apply seq_cons; [apply (@exactly_run NOFLAGS _ _ _ H) | apply seq_nil].
Qed.

Lemma detect_api_key_vendor_token_witness :
  detect_api_key (py "id=AKIAIOSFODNN7EXAMPLE2 ok") = true.
Proof.
  apply (@detect_api_key_vendor_token
           (py "id=") (py "AKIAIOSFODNN7EXAMPLE2") (py " ok")).
  right. right. exists (py "IOSFODNN7EXAMPLE2"). split; reflexivity.
Defined.

(** X4.  The 40-character heuristic: every text that holds a run of 40
    or more characters of [0-9a-zA-Z/+] (a SHA-1 digest in hexadecimal,
    say) is taken by [detect_api_key]; and since that detector is the
    first of the battery, [check_sensitive_info] then returns the API-key
    warning whatever else the text holds, having called no other
    detector. *)
Theorem base64_run_is_api_key (pre run post : str) (w : world) :
  run_of BASE64 40 run = true ->
  detect_api_key (pre ++ run ++ post) = true
  /\ runs_to (check_sensitive_info (PyStr (pre ++ run ++ post))) w
             (Ok (true, MSG_API_KEY)) [] ["detect_api_key"%string].
Proof.
  intro H.
  assert (Hd : detect_api_key (pre ++ run ++ post) = true).
  { unfold detect_api_key.
    rewrite <- (firstn_skipn 40 run), <- !app_assoc.
    apply any_search_intro with (p := exactly 40 (Set_ false BASE64));
      [do 5 right; left; reflexivity|].
    apply (@exactly_run NOFLAGS _ _ _ H). }
  split; [exact Hd|].
  pose proof (for_checks_str checks (pre ++ run ++ post) w) as Hr.
  unfold checks in Hr at 2 3. simpl verdict in Hr. simpl evaluated in Hr.
  rewrite Hd in Hr. exact Hr.
Qed.

Lemma base64_run_is_api_key_witness :
  runs_to (check_sensitive_info
             (PyStr (py "commit da39a3ee5e6b4b0d3255bfef95601890afd80709")))
          empty_world (Ok (true, MSG_API_KEY)) [] ["detect_api_key"%string].
Proof.
  apply (@base64_run_is_api_key
           (py "commit ") (py "da39a3ee5e6b4b0d3255bfef95601890afd80709") []
           empty_world).
  reflexivity.
Defined.

(** ** The battery as a whole *)

(** X5.  Surrounding text hides nothing: a detector that fires on a text
    fires on every text that holds it, so a prompt that is denied stays
    denied when anything is put before or after it (the warning may
    change, since an earlier detector can fire on the larger text). *)
Theorem denial_survives_context (a t b : str) (w : world) (msg : str) :
  fst (check_sensitive_info (PyStr t) w) = Ok (true, msg) ->
  (forall c, In c checks -> check_func c t = true ->
             check_func c (a ++ t ++ b) = true)
  /\ exists msg',
       fst (check_sensitive_info (PyStr (a ++ t ++ b)) w) = Ok (true, msg').
Proof.
  intro H. split; [intros c Hin Hc; apply check_func_extend; auto|].
  rewrite check_sensitive_info_str in *.
  assert (Hv : verdict checks t = (true, msg)) by congruence.
  destruct (@verdict_true checks t msg Hv) as (c & Hin & Hc & _).
  destruct (verdict checks (a ++ t ++ b)) as [[|] msg'] eqn:E;
    [exists msg'; reflexivity|].
  exfalso.
  pose proof (@verdict_false checks (a ++ t ++ b) msg' E c Hin) as Hf.
  rewrite (@check_func_extend c t a b Hin Hc) in Hf. discriminate Hf.
Qed.

Lemma denial_survives_context_witness :
  exists msg',
    fst (check_sensitive_info
           (PyStr (py "key sk-abcdefghijklmnopqrstuvwxyz0123456789 "
                   ++ py "password: hunter22" ++ py " thanks"))
           empty_world)
    = Ok (true, msg').
Proof.
  apply (@denial_survives_context
           (py "key sk-abcdefghijklmnopqrstuvwxyz0123456789 ")
           (py "password: hunter22") (py " thanks") empty_world
           MSG_PASSWORD).
  rewrite check_sensitive_info_str. vm_compute. reflexivity.
Defined.

(** X6.  Every pattern of the password, secret/token, credential-pair and
    email+password detectors asks for [:] or [=].  So on a text that holds
    neither character none of those four detectors fires, and
    [check_sensitive_info] can only answer with the API-key warning or
    allow. *)
Theorem no_assignment_only_api_key (t : str) (w : world) :
  existsb is_assign t = false ->
  detect_password t = false
  /\ detect_secret_key t = false
  /\ detect_credentials t = false
  /\ detect_email_password t = false
  /\ fst (check_sensitive_info (PyStr t) w)
     = Ok (if detect_api_key t then (true, MSG_API_KEY) else (false, [])).
Proof.
  intro H.
  assert (Hno : forall c, In c t -> is_assign c = false).
  { intros c Hc. destruct (is_assign c) eqn:E; [|reflexivity].
    rewrite <- H. symmetry. apply existsb_exists. eauto. }
  assert (Hp : detect_password t = false)
    by (apply any_search_lacking with is_assign;
        [vm_compute; reflexivity | exact Hno]).
  assert (Hs : detect_secret_key t = false)
    by (apply any_search_lacking with is_assign;
        [vm_compute; reflexivity | exact Hno]).
  assert (Hc : detect_credentials t = false)
    by (apply any_search_lacking with is_assign;
        [vm_compute; reflexivity | exact Hno]).
  assert (He : detect_email_password t = false).
  { assert (Hx : any_search NOFLAGS [password_pattern] t = false)
      by (apply any_search_lacking with is_assign;
          [vm_compute; reflexivity | exact Hno]).
    unfold detect_email_password. simpl in Hx.
    destruct (search NOFLAGS password_pattern t); [discriminate Hx|].
    rewrite andb_false_r. reflexivity. }
  repeat (split; [assumption|]).
  rewrite check_sensitive_info_str.
  unfold checks. cbn [verdict check_func warning_msg].
  rewrite Hp, Hs, Hc, He. reflexivity.
Qed.

Lemma no_assignment_only_api_key_witness :
  fst (check_sensitive_info
         (PyStr (py "my password is hunter2 and the secret is out"))
         empty_world)
  = Ok (false, []).
Proof.
  destruct (@no_assignment_only_api_key
              (py "my password is hunter2 and the secret is out")
              empty_world eq_refl) as (_ & _ & _ & _ & H).
  rewrite H.
  assert (E : detect_api_key
                (py "my password is hunter2 and the secret is out") = false)
    by (vm_compute; reflexivity).
  rewrite E. reflexivity.
Defined.

(** X7.  No pattern of the battery can match fewer than six characters,
    so every text shorter than that is allowed, all five detectors having
    been called; the bound is met, the six characters of "登入:密碼:"
    being denied. *)
Theorem short_text_allowed (t : str) (w : world) :
  (List.length t < 6)%nat ->
  runs_to (check_sensitive_info (PyStr t)) w (Ok (false, [])) []
          (map check_name checks)
  /\ forall w',
       fst (check_sensitive_info (PyStr (py "登入:密碼:")) w')
       = Ok (true, MSG_CREDENTIALS).
Proof.
  intro Hlen. split.
  - assert (Hall : forall c, In c checks -> check_func c t = false).
    { intros c Hin.
      repeat (destruct Hin as [<- | Hin];
              [try (apply any_search_short with 6%nat;
                    [vm_compute; reflexivity | exact Hlen])|]);
        [|destruct Hin].
      simpl. unfold detect_email_password.
      assert (Hx : any_search NOFLAGS [email_pattern] t = false)
        by (apply any_search_short with 6%nat;
            [vm_compute; reflexivity | exact Hlen]).
      simpl in Hx.
      destruct (search NOFLAGS email_pattern t); [discriminate Hx|].
      reflexivity. }
    pose proof (for_checks_str checks t w) as H.
    rewrite (verdict_none checks t Hall) in H.
    rewrite (evaluated_none checks t Hall) in H. exact H.
  - intro w'. rewrite check_sensitive_info_str. vm_compute. reflexivity.
Qed.

Lemma short_text_allowed_witness :
  runs_to (check_sensitive_info (PyStr (py "pw:ab"))) empty_world
          (Ok (false, [])) [] (map check_name checks).
Proof.
  apply (@short_text_allowed (py "pw:ab") empty_world). vm_compute. lia.
Defined.

(** X8.  Short circuit: when the detector at position [k] is the first
    that fires, [check_sensitive_info] has called exactly the detectors at
    positions 0 to [k], each once and in battery order, and none after it;
    when none fires it has called all five. *)
Theorem detectors_called_in_order (t : str) (w : world) :
  (forall k c,
      nth_error checks k = Some c ->
      check_func c t = true ->
      (forall j c', (j < k)%nat -> nth_error checks j = Some c' ->
                    check_func c' t = false) ->
      runs_to (check_sensitive_info (PyStr t)) w (Ok (true, warning_msg c)) []
              (map check_name (firstn (S k) checks)))
  /\ ((forall c, In c checks -> check_func c t = false) ->
      runs_to (check_sensitive_info (PyStr t)) w (Ok (false, [])) []
              ["detect_api_key"; "detect_password"; "detect_secret_key";
               "detect_credentials"; "detect_email_password"]%string).
Proof.
  pose proof (for_checks_str checks t w) as H. split.
  - intros k c Hk Hc Hlt.
    rewrite (@verdict_first checks t k c Hk Hc Hlt) in H.
    rewrite (@evaluated_first checks t k c Hk Hc Hlt) in H. exact H.
  - intro Hall.
    rewrite (verdict_none checks t Hall) in H.
    rewrite (evaluated_none checks t Hall) in H. exact H.
Qed.

Lemma detectors_called_in_order_witness :
  runs_to (check_sensitive_info
             (PyStr (py "token = abcdefghijklmnopqrstuvwx")))
          empty_world (Ok (true, MSG_SECRET_KEY)) []
          ["detect_api_key"; "detect_password"; "detect_secret_key"]%string.
Proof.
  apply (proj1 (detectors_called_in_order
                  (py "token = abcdefghijklmnopqrstuvwx") empty_world)
               2%nat
               {| check_name := "detect_secret_key";
                  check_func := detect_secret_key;
                  warning_msg := MSG_SECRET_KEY |} eq_refl).
  - vm_compute. reflexivity.
  - intros j c' Hj Hn.
    assert (E : forallb (fun c => negb (check_func c
                           (py "token = abcdefghijklmnopqrstuvwx")))
                        (firstn 2 checks) = true)
      by (vm_compute; reflexivity).
    rewrite forallb_forall in E. apply negb_true_iff. apply E.
    apply nth_error_In with j. rewrite nth_error_firstn.
    apply Nat.ltb_lt in Hj. rewrite Hj. exact Hn.
Defined.

(** X9.  The shape of the result: [check_sensitive_info] returns either
    [(False, "")] or [True] with one of the warnings of the first four
    detectors; so the flag is set exactly when the message is not empty. *)
Theorem result_is_allow_or_warning (prompt : pyval) (w : world)
        (r : bool * str) :
  fst (check_sensitive_info prompt w) = Ok r ->
  (r = (false, [])
   \/ (fst r = true
       /\ In (snd r) [MSG_API_KEY; MSG_PASSWORD; MSG_SECRET_KEY;
                      MSG_CREDENTIALS]))
  /\ (fst r = true <-> snd r <> []).
Proof.
  intro H.
  assert (Hs : r = (false, [])
               \/ (fst r = true
                   /\ In (snd r) [MSG_API_KEY; MSG_PASSWORD; MSG_SECRET_KEY;
                                  MSG_CREDENTIALS])).
  { destruct prompt; try (simpl in H; discriminate H).
    rewrite check_sensitive_info_str in H. injection H as <-.
    unfold verdict, checks, check_func, warning_msg.
    destruct (detect_api_key s); [right; simpl; auto|].
    destruct (detect_password s) eqn:Ep; [right; simpl; auto|].
    destruct (detect_secret_key s); [right; simpl; auto|].
    destruct (detect_credentials s); [right; simpl; auto 6|].
    destruct (detect_email_password s) eqn:Ee; [|left; reflexivity].
    rewrite (email_implies_password s Ee) in Ep. discriminate Ep. }
  split; [exact Hs|].
  destruct Hs as [-> | [Ht Hin]]; simpl.
  - split; [discriminate | congruence].
  - split; [intros _|intros _; exact Ht].
    simpl in Hin.
    destruct Hin as [<- | [<- | [<- | [<- | []]]]]; discriminate.
Qed.

Lemma result_is_allow_or_warning_witness :
  fst (true, MSG_PASSWORD) = true <-> snd (true, MSG_PASSWORD) <> [].
Proof.
  apply (@result_is_allow_or_warning
           (PyStr (py "pwd = 'hunter22'")) empty_world (true, MSG_PASSWORD)).
  rewrite check_sensitive_info_str. vm_compute. reflexivity.
Defined.

(** ** The detectors, shape by shape *)

(** X10.  The password detector takes "password" and "pwd" in any
    casing, "pass" and "Pass", and "密碼", followed by optional
    whitespace, [:] or [=], optional whitespace, an optional quote and 6
    or more characters that are neither whitespace nor quotes. *)
Theorem detect_password_accepted_labels
        (pre lab ws1 ws2 q val post : str) (op : N) :
  password_labels lab ->
  password_assignment 6 ws1 op ws2 q val = true ->
  detect_password (pre ++ (lab ++ ws1 ++ [op] ++ ws2 ++ q ++ val) ++ post)
  = true.
Proof.
  intros Hlab Hval. unfold password_assignment in Hval.
  apply andb_true_iff in Hval as [Hval Hlen].
  apply andb_true_iff in Hval as [Hok Hchars].
  apply Nat.leb_le in Hlen.
  assert (Htail : matches NOFLAGS (re_seq password_value)
                          (ws1 ++ [op] ++ ws2 ++ q ++ val))
    by (apply value_tail; auto using value_chars_run).
  unfold detect_password.
  destruct Hlab as [H | [H | [H | [H | ->]]]].
  - apply any_search_intro
      with (p := re_seq (password_label ++ password_value));
      [left; reflexivity|].
    apply seq_app; auto using password_label_takes.
  - apply any_search_intro
      with (p := re_seq ([cls "Pp"; cls "Ww"; cls "Dd"] ++ password_value));
      [right; left; reflexivity|].
    apply seq_app; auto using pwd_label_takes.
  - apply any_search_intro
      with (p := re_seq ([cls "Pp"; lit "ass"] ++ password_value));
      [right; right; left; reflexivity|].
    apply seq_app; auto using pass_label_takes.
  - apply any_search_intro
      with (p := re_seq ([cls "Pp"; lit "ass"] ++ password_value));
      [right; right; left; reflexivity|].
    apply seq_app; auto using pass_label_takes.
  - apply any_search_intro
      with (p := re_seq ([lit "密碼"] ++ password_value));
      [right; right; right; left; reflexivity|].
    apply seq_app; auto using lit_label_takes.
Qed.

Lemma detect_password_accepted_labels_witness :
  detect_password (py "我的密碼 = hunter22!") = true.
Proof.
  apply (@detect_password_accepted_labels
           (py "我的") (py "密碼") (py " ") (py " ") [] (py "hunter22!") []
           61%N);
    [do 4 right|]; reflexivity.
Defined.

(** X11.  The secret/token detector takes "secret" in any casing with a
    value of 16 or more characters of [A-Za-z0-9_-], and "token" in any
    casing with a value of 20 or more, after the same assignment. *)
Theorem detect_secret_or_token
        (pre lab ws1 ws2 q val post : str) (op : N) (n : nat) :
  secret_label_shape lab n ->
  secret_assignment n ws1 op ws2 q val = true ->
  detect_secret_key (pre ++ (lab ++ ws1 ++ [op] ++ ws2 ++ q ++ val) ++ post)
  = true.
Proof.
  intros Hlab Hval. unfold secret_assignment in Hval.
  apply andb_true_iff in Hval as [Hval Hlen].
  apply andb_true_iff in Hval as [Hok Hchars].
  apply Nat.leb_le in Hlen.
  unfold detect_secret_key.
  destruct Hlab as [[H ->] | [H ->]].
  - apply any_search_intro
      with (p := re_seq (secret_label ++ secret_value 16));
      [left; reflexivity|].
    apply seq_app; [apply secret_label_takes; exact H|].
    apply value_tail; auto using key_chars_run.
  - apply any_search_intro
      with (p := re_seq ([cls "Tt"; cls "Oo"; cls "Kk"; cls "Ee"; cls "Nn"]
                         ++ secret_value 20));
      [right; right; left; reflexivity|].
    apply seq_app; [apply token_label_takes; exact H|].
    apply value_tail; auto using key_chars_run.
Qed.

Lemma detect_secret_or_token_witness :
  detect_secret_key (py "Authorization TOKEN:abcdefghij0123456789") = true.
Proof.
  apply (@detect_secret_or_token
           (py "Authorization ") (py "TOKEN") [] [] []
           (py "abcdefghij0123456789") [] 58%N 20%nat);
    [right; split|]; reflexivity.
Defined.

(** X12.  The email+password detector asks for co-occurrence only: it
    fires on every text that holds an address (one or more characters of
    [a-zA-Z0-9._%+-], [@], one or more of [a-zA-Z0-9.-], a dot and two or
    more letters) and a "password" assignment with a value of 6 or more
    characters, wherever the two stand and in either order. *)
Theorem detect_email_password_anywhere (email pw t : str) :
  email_shape email -> password_shape pw ->
  infix email t -> infix pw t ->
  detect_email_password t = true.
Proof.
  intros He Hp (a1 & b1 & E1) (a2 & b2 & E2).
  unfold detect_email_password.
  assert (H1 : search NOFLAGS email_pattern t = true)
    by (rewrite E1; apply search_intro, email_shape_takes; exact He).
  assert (H2 : search NOFLAGS password_pattern t = true)
    by (rewrite E2; apply search_intro, password_shape_takes; exact Hp).
  rewrite H1, H2. reflexivity.
Qed.

Lemma detect_email_password_anywhere_witness :
  detect_email_password
    (py "Password=hunter22 belongs to bob.smith@mail.example.org, ok")
  = true.
Proof.
  apply (@detect_email_password_anywhere
           (py "bob.smith@mail.example.org") (py "Password=hunter22")
           (py "Password=hunter22 belongs to bob.smith@mail.example.org, ok")).
  - exists (py "bob.smith"), (py "mail.example"), (py "org").
    repeat split; vm_compute; reflexivity.
  - exists (py "Password"), [], 61%N, [], [], (py "hunter22").
    repeat split; vm_compute; reflexivity.
  - exists (py "Password=hunter22 belongs to "), (py ", ok").
    vm_compute. reflexivity.
  - exists [], (py " belongs to bob.smith@mail.example.org, ok").
    vm_compute. reflexivity.
Defined.

(** ** The adapter on prompts of every type *)

Section Prompts.

Variable decode_utf8 : list N -> outcome str.
Variable json_loads : str -> outcome pyval.

(** X13.  A prompt that Python counts as false ([null], [false], [0],
    [0.0], the empty string, list or object) is treated as no prompt:
    [main] writes exactly [{continue: true}] and calls no detector. *)
Theorem main_falsy_prompt (stdin : list N) (input_data : str) (d : pydict)
        (v : pyval) (w : world) :
  decode_utf8 stdin = Ok input_data ->
  json_loads input_data = Ok (PyDict d) ->
  lookup d (py "prompt") = Some v ->
  falsy v ->
  runs_to (main decode_utf8 json_loads stdin) w (Ok tt)
          [[(CONTINUE, PyBool true)]] [].
Proof.
  intros Hd Hj Hp Hv.
  apply (@main_no_prompt decode_utf8 json_loads stdin input_data d w Hd Hj).
  unfold prompt_of. rewrite Hp.
  destruct Hv as [-> | [-> | [-> | [-> | [-> | [-> | ->]]]]]]; reflexivity.
Qed.

(** X14.  A prompt that counts as true but is not a string (a number, a
    list, an object, [true]) is never scanned: the first detector raises
    [TypeError] at its first [re.search], the outer handler answers
    [continue = true] with the error text, and no other detector is
    called, whatever the value holds. *)
Theorem main_non_text_prompt (stdin : list N) (input_data : str)
        (d : pydict) (v : pyval) (w : world) :
  decode_utf8 stdin = Ok input_data ->
  json_loads input_data = Ok (PyDict d) ->
  lookup d (py "prompt") = Some v ->
  truthy v = true ->
  (forall t, v <> PyStr t) ->
  exists e,
    class_of e = TypeError
    /\ runs_to (main decode_utf8 json_loads stdin) w (Ok tt)
               [[(CONTINUE, PyBool true);
                 (USER_MESSAGE, PyStr (ERROR_PREFIX ++ str_of e))]]
               ["detect_api_key"%string].
Proof.
  intros Hd Hj Hp Ht Hns.
  assert (Hv : prompt_of d = v) by (unfold prompt_of; rewrite Hp; reflexivity).
  destruct (@main_prompt_not_str decode_utf8 json_loads stdin input_data d w
                                 Hd Hj)
    as (e & Hraise & Hrun); try (rewrite Hv; assumption).
  exists e. split; [|exact Hrun].
  destruct (@check_sensitive_info_not_str v w Hns) as (e' & Hc & He' & _).
  rewrite Hv in Hraise. rewrite Hraise in He'.
  injection He' as ->. exact Hc.
Qed.

(** X15.  On a prompt that is a non-empty string [main] writes what
    [check_sensitive_info] decides: the deny with the returned warning
    when the flag is set, [{continue: true}] otherwise; and the detectors
    called are those of that one evaluation. *)
Theorem main_text_prompt (stdin : list N) (input_data : str) (d : pydict)
        (t : str) (w : world) (r : bool * str) (names : list string) :
  decode_utf8 stdin = Ok input_data ->
  json_loads input_data = Ok (PyDict d) ->
  lookup d (py "prompt") = Some (PyStr t) ->
  t <> [] ->
  runs_to (check_sensitive_info (PyStr t)) w (Ok r) [] names ->
  runs_to (main decode_utf8 json_loads stdin) w (Ok tt)
          [if fst r
           then [(CONTINUE, PyBool false); (USER_MESSAGE, PyStr (snd r))]
           else [(CONTINUE, PyBool true)]]
          names.
Proof.
  intros Hd Hj Hp Hne (Hr & _ & Hn).
  assert (Hv : prompt_of d = PyStr t)
    by (unfold prompt_of; rewrite Hp; reflexivity).
  pose proof (@main_prompt_str decode_utf8 json_loads stdin input_data d t w
                Hd Hj Hv Hne) as H.
  destruct (for_checks_str checks t w) as (E1 & _ & E3).
  unfold check_sensitive_info in Hr, Hn.
  rewrite E1 in Hr. injection Hr as <-.
  rewrite E3 in Hn. apply app_inv_head in Hn. subst names. exact H.
Qed.

(** X16.  A JSON value that is not an object (an array, a string, a
    number, [true], [false], [null]) makes [data.get] raise
    [AttributeError]; [main] answers [continue = true] with the error
    text and calls no detector. *)
Theorem main_non_object_input (stdin : list N) (input_data : str)
        (data : pyval) (w : world) :
  decode_utf8 stdin = Ok input_data ->
  json_loads input_data = Ok data ->
  (forall d, data <> PyDict d) ->
  exists e,
    class_of e = AttributeError
    /\ runs_to (main decode_utf8 json_loads stdin) w (Ok tt)
               [[(CONTINUE, PyBool true);
                 (USER_MESSAGE, PyStr (ERROR_PREFIX ++ str_of e))]]
               [].
Proof.
  intros Hd Hj Hnd.
  destruct (@main_not_dict decode_utf8 json_loads stdin input_data data w
                           Hd Hj Hnd) as (e & Hg & Hrun).
  exists e. split; [|exact Hrun].
  specialize (Hg w).
  destruct data; simpl in Hg; try (injection Hg as <-; reflexivity).
  exfalso. eapply Hnd. reflexivity.
Qed.

End Prompts.

Lemma main_falsy_prompt_witness :
  runs_to (main (fun bytes => Ok bytes)
                (fun _ => Ok (PyDict [(py "prompt", PyNone)]))
                (py "{prompt: null}"))
          empty_world (Ok tt) [[(CONTINUE, PyBool true)]] [].
Proof.
  apply (@main_falsy_prompt
           (fun bytes => Ok bytes)
           (fun _ => Ok (PyDict [(py "prompt", PyNone)]))
           (py "{prompt: null}") (py "{prompt: null}")
           [(py "prompt", PyNone)] PyNone empty_world
           eq_refl eq_refl eq_refl (or_introl eq_refl)).
Defined.

Lemma main_non_text_prompt_witness :
  exists e,
    class_of e = TypeError
    /\ runs_to (main (fun bytes => Ok bytes)
                     (fun _ => Ok (PyDict
                        [(py "prompt",
                          PyList [PyStr (py "password: hunter22")])]))
                     (py "{prompt: [password: hunter22]}"))
               empty_world (Ok tt)
               [[(CONTINUE, PyBool true);
                 (USER_MESSAGE, PyStr (ERROR_PREFIX ++ str_of e))]]
               ["detect_api_key"%string].
Proof.
  apply (@main_non_text_prompt
           (fun bytes => Ok bytes)
           (fun _ => Ok (PyDict
              [(py "prompt", PyList [PyStr (py "password: hunter22")])]))
           (py "{prompt: [password: hunter22]}")
           (py "{prompt: [password: hunter22]}")
           [(py "prompt", PyList [PyStr (py "password: hunter22")])]
           (PyList [PyStr (py "password: hunter22")]) empty_world
           eq_refl eq_refl eq_refl eq_refl).
  discriminate.
Defined.

Lemma main_text_prompt_witness :
  runs_to (main (fun bytes => Ok bytes)
                (fun _ => Ok (PyDict
                   [(py "prompt", PyStr (py "pwd = 'hunter22'"))]))
                (py "{prompt: pwd = 'hunter22'}"))
          empty_world (Ok tt)
          [[(CONTINUE, PyBool false); (USER_MESSAGE, PyStr MSG_PASSWORD)]]
          ["detect_api_key"; "detect_password"]%string.
Proof.
  apply (@main_text_prompt
           (fun bytes => Ok bytes)
           (fun _ => Ok (PyDict
              [(py "prompt", PyStr (py "pwd = 'hunter22'"))]))
           (py "{prompt: pwd = 'hunter22'}") (py "{prompt: pwd = 'hunter22'}")
           [(py "prompt", PyStr (py "pwd = 'hunter22'"))]
           (py "pwd = 'hunter22'") empty_world (true, MSG_PASSWORD)
           ["detect_api_key"; "detect_password"]%string
           eq_refl eq_refl eq_refl).
  - vm_compute. discriminate.
  - assert (Hv : verdict checks (py "pwd = 'hunter22'") = (true, MSG_PASSWORD))
      by (vm_compute; reflexivity).
    assert (He : evaluated checks (py "pwd = 'hunter22'")
                 = ["detect_api_key"; "detect_password"]%string)
      by (vm_compute; reflexivity).
    rewrite <- Hv, <- He. apply for_checks_str.
Defined.

Lemma main_non_object_input_witness :
  exists e,
    class_of e = AttributeError
    /\ runs_to (main (fun bytes => Ok bytes)
                     (fun _ => Ok (PyStr (py "password: hunter22")))
                     (py "password: hunter22"))
               empty_world (Ok tt)
               [[(CONTINUE, PyBool true);
                 (USER_MESSAGE, PyStr (ERROR_PREFIX ++ str_of e))]]
               [].
Proof.
  apply (@main_non_object_input
           (fun bytes => Ok bytes)
           (fun _ => Ok (PyStr (py "password: hunter22")))
           (py "password: hunter22") (py "password: hunter22")
           (PyStr (py "password: hunter22")) empty_world eq_refl eq_refl).
  discriminate.
Defined.
